(** * The todo list of [src/pages/index.tsx]

    A shallow embedding of the [TodoList] component: its state (the
    [useState] cells), its event handlers, the two [useEffect] blocks
    that hydrate the list from [localStorage] and persist it, and the
    derived values [filteredTodos] and [itemsLeft].

    Platform functions the component calls ([String.prototype.trim],
    [Date], [Number.prototype.toString], [JSON]) are modelled after
    ECMAScript as far as the component observes them.

    The source file holds two versions of the component; the second
    has no editing and its other handlers and effects are those of the
    first, which the embedding follows (lines 11 to 116).

    Strings are sequences of code units; the model covers the code
    units 0..255, one [ascii] each. *)

From Stdlib Require Import ZArith List String Ascii Bool Lia.
From Stdlib Require Import DecimalString DecimalZ.
Import ListNotations.
Local Open Scope string_scope.
Local Open Scope Z_scope.
Set Warnings "-register-all".

(* ================================================================== *)
(** * Platform: strings *)

(** WhiteSpace and LineTerminator code units below 256: TAB, LF, VT, FF,
    CR, SP and NBSP. *)
Definition isWhiteSpace (c : ascii) : bool :=
  let n := nat_of_ascii c in
  (Nat.eqb n 9 || Nat.eqb n 10 || Nat.eqb n 11 || Nat.eqb n 12
   || Nat.eqb n 13 || Nat.eqb n 32 || Nat.eqb n 160)%bool.

Fixpoint trimStart (s : string) : string :=
  match s with
  | EmptyString => EmptyString
  | String c s' => if isWhiteSpace c then trimStart s' else s
  end.

Fixpoint trimEnd (s : string) : string :=
  match s with
  | EmptyString => EmptyString
  | String c s' =>
      match trimEnd s' with
      | EmptyString => if isWhiteSpace c then EmptyString else String c EmptyString
      | r => String c r
      end
  end.

(** [s.trim()] *)
Definition trim (s : string) : string := trimEnd (trimStart s).

(** Truthiness of a string: every string but [''] is truthy. *)
Definition truthy (s : string) : bool := negb (s =? "")%string.

(** [n.toString()] for an integral Number of magnitude below 1e21:
    decimal digits, a leading minus sign for negatives. *)
Definition Number_toString (n : Z) : string :=
  NilZero.string_of_int (Z.to_int n).

(* ================================================================== *)
(** * Platform: Date *)

(** A Date object holds a time value: NaN (an Invalid Date) or an
    integral number of milliseconds since the epoch, of magnitude at
    most 8.64e15. *)
Inductive Date : Type :=
| InvalidDate
| TimeValue (ms : Z).

Definition maxTimeValue : Z := 8640000000000000.

Definition inTimeRange (t : Z) : bool :=
  (- maxTimeValue <=? t) && (t <=? maxTimeValue).

Definition validDate (d : Date) : bool :=
  match d with
  | InvalidDate => false
  | TimeValue t => inTimeRange t
  end.

Definition msPerDay : Z := 86400000.
Definition Day (t : Z) : Z := t / msPerDay.
Definition TimeWithinDay (t : Z) : Z := t mod msPerDay.

(** Day number (days since 1970-01-01) to proleptic Gregorian
    (year, month 1..12, day of month 1..31). *)
Definition civil_from_days (z : Z) : Z * Z * Z :=
  let z := z + 719468 in
  let era := z / 146097 in
  let doe := z mod 146097 in
  let yoe := (doe - doe / 1460 + doe / 36524 - doe / 146096) / 365 in
  let doy := doe - (365 * yoe + yoe / 4 - yoe / 100) in
  let mp := (5 * doy + 2) / 153 in
  let d := doy - (153 * mp + 2) / 5 + 1 in
  let m := if mp <? 10 then mp + 3 else mp - 9 in
  let y := yoe + era * 400 in
  (if m <=? 2 then y + 1 else y, m, d).

(** MakeDay: the day number of a (year, month, day). *)
Definition days_from_civil (y m d : Z) : Z :=
  let y := if m <=? 2 then y - 1 else y in
  let era := y / 400 in
  let yoe := y mod 400 in
  let doy := (153 * (if 2 <? m then m - 3 else m + 9) + 2) / 5 + d - 1 in
  let doe := yoe * 365 + yoe / 4 - yoe / 100 + doy in
  era * 146097 + doe - 719468.

Definition digitChar (n : Z) : ascii :=
  ascii_of_nat (48 + Z.to_nat (n mod 10)).

(** The [k] low decimal digits of [n], most significant first. *)
Fixpoint digits (k : nat) (n : Z) : string :=
  match k with
  | O => EmptyString
  | S k' => digits k' (n / 10) ++ String (digitChar n) EmptyString
  end.

Definition yearString (y : Z) : string :=
  if (0 <=? y) && (y <=? 9999) then digits 4 y
  else (if y <? 0 then "-" else "+") ++ digits 6 (Z.abs y).

(** [d.toISOString()] of the valid time value [t]:
    [YYYY-MM-DDTHH:mm:ss.sssZ], the year expanded to a sign and six
    digits outside 0..9999. *)
Definition toISOString (t : Z) : string :=
  let '(y, m, d) := civil_from_days (Day t) in
  let tod := TimeWithinDay t in
  yearString y ++ "-" ++ digits 2 m ++ "-" ++ digits 2 d ++ "T"
  ++ digits 2 (tod / 3600000) ++ ":" ++ digits 2 (tod / 60000 mod 60) ++ ":"
  ++ digits 2 (tod / 1000 mod 60) ++ "." ++ digits 3 (tod mod 1000) ++ "Z".

Definition digitValue (c : ascii) : option Z :=
  let n := nat_of_ascii c in
  if (Nat.leb 48 n && Nat.leb n 57)%bool then Some (Z.of_nat n - 48) else None.

(** Reads exactly [k] decimal digits off the front of [s], continuing
    the number [acc]. *)
Fixpoint takeDigits (k : nat) (acc : Z) (s : string) : option (Z * string) :=
  match k with
  | O => Some (acc, s)
  | S k' =>
      match s with
      | EmptyString => None
      | String c s' =>
          match digitValue c with
          | Some v => takeDigits k' (10 * acc + v) s'
          | None => None
          end
      end
  end.

Definition expect (c : ascii) (s : string) : option string :=
  match s with
  | String c' s' => if Ascii.eqb c c' then Some s' else None
  | EmptyString => None
  end.

Notation "'do' x <- a ; b" :=
  (match a with Some x => b | None => None end)
  (at level 10, x pattern, a at level 100, b at level 200).

Definition takeYear (s : string) : option (Z * string) :=
  match s with
  | String c s' =>
      if Ascii.eqb c "+" then takeDigits 6 0 s'
      else if Ascii.eqb c "-" then
        do (y, r) <- takeDigits 6 0 s' ;
        if y =? 0 then None else Some (- y, r)
      else takeDigits 4 0 s
  | EmptyString => None
  end.

(** The time value of a string in the complete UTC form of the
    ECMAScript date-time string format,
    [YYYY-MM-DDTHH:mm:ss.sssZ] with the year possibly expanded, with
    legal field values and a time value in range; [None] for every
    other string. This is the form [toISOString] writes. *)
Definition parseDateTimeString (s : string) : option Z :=
  do (y, s) <- takeYear s ;
  do s <- expect "-" s ;
  do (m, s) <- takeDigits 2 0 s ;
  do s <- expect "-" s ;
  do (d, s) <- takeDigits 2 0 s ;
  do s <- expect "T" s ;
  do (h, s) <- takeDigits 2 0 s ;
  do s <- expect ":" s ;
  do (mi, s) <- takeDigits 2 0 s ;
  do s <- expect ":" s ;
  do (sec, s) <- takeDigits 2 0 s ;
  do s <- expect "." s ;
  do (ms, s) <- takeDigits 3 0 s ;
  do s <- expect "Z" s ;
  let day := days_from_civil y m d in
  let t := day * msPerDay + h * 3600000 + mi * 60000 + sec * 1000 + ms in
  if (s =? "")%string
     && (let '(y', m', d') := civil_from_days day in
         (y' =? y) && (m' =? m) && (d' =? d))
     && (h <=? 23) && (mi <=? 59) && (sec <=? 59)
     && inTimeRange t
  then Some t else None.

(** The format also has forms that leave fields out: the date-only
    forms [YYYY], [YYYY-MM] and [YYYY-MM-DD], and a date-only form
    followed by [THH:mm], [THH:mm:ss] or [THH:mm:ss.sss] and a UTC
    offset, [Z] or a sign and [HH:mm]. A month or day left out is 01,
    seconds and milliseconds left out are 0. *)

(** [-MM] and [-DD] after the year. *)
Definition takeMonthDay (s : string) : option (Z * Z * string) :=
  match expect "-" s with
  | None => Some (1, 1, s)
  | Some s =>
      do (m, s) <- takeDigits 2 0 s ;
      match expect "-" s with
      | None => Some (m, 1, s)
      | Some s => do (d, s) <- takeDigits 2 0 s ; Some (m, d, s)
      end
  end.

(** [HH:mm], [HH:mm:ss] or [HH:mm:ss.sss], as milliseconds since
    midnight. *)
Definition takeTime (s : string) : option (Z * string) :=
  do (h, s) <- takeDigits 2 0 s ;
  do s <- expect ":" s ;
  do (mi, s) <- takeDigits 2 0 s ;
  do (sec, ms, s) <-
    match expect ":" s with
    | None => Some (0, 0, s)
    | Some s =>
        do (sec, s) <- takeDigits 2 0 s ;
        match expect "." s with
        | None => Some (sec, 0, s)
        | Some s => do (ms, s) <- takeDigits 3 0 s ; Some (sec, ms, s)
        end
    end ;
  if (h <=? 23) && (mi <=? 59) && (sec <=? 59)
  then Some (h * 3600000 + mi * 60000 + sec * 1000 + ms, s)
  else None.

(** The UTC offset in milliseconds, east of Greenwich positive. With
    no offset a date-time form is local time, which the string alone
    does not determine. *)
Definition takeOffset (s : string) : option (Z * string) :=
  match s with
  | String c s' =>
      if Ascii.eqb c "Z" then Some (0, s')
      else if (Ascii.eqb c "+" || Ascii.eqb c "-")%bool then
        do (h, s) <- takeDigits 2 0 s' ;
        do s <- expect ":" s ;
        do (mi, s) <- takeDigits 2 0 s ;
        if (h <=? 23) && (mi <=? 59)
        then Some ((if Ascii.eqb c "+" then 1 else -1)
                   * (h * 3600000 + mi * 60000), s)
        else None
      else None
  | EmptyString => None
  end.

(** The time value of a string in any form of the format that fixes
    it: a date-only form (UTC midnight) or a date-time form with an
    offset, with legal field values. *)
Definition parseDateTimeForms (s : string) : option Z :=
  do (y, s) <- takeYear s ;
  do (m, d, s) <- takeMonthDay s ;
  do (tod, s) <-
    (if (s =? "")%string then Some (0, s)
     else
       do s <- expect "T" s ;
       do (tod, s) <- takeTime s ;
       do (off, s) <- takeOffset s ;
       Some (tod - off, s)) ;
  let day := days_from_civil y m d in
  if (s =? "")%string
     && (let '(y', m', d') := civil_from_days day in
         (y' =? y) && (m' =? m) && (d' =? d))
  then Some (day * msPerDay + tod) else None.

(** [Date.parse(s)] where the format fixes the result and the time
    value is in range; [None] for the strings whose reading depends on
    the time zone or is left to the implementation (a date-time form
    without offset, a string outside the format, a field out of
    bounds). *)
Definition Date_parse (s : string) : option Z :=
  do t <- parseDateTimeForms s ;
  if inTimeRange t then Some t else None.

(** The integer a string is the decimal numeral of, as [toString]
    writes it: no sign but a minus, no leading zero. *)
Definition readInteger (s : string) : option Z :=
  do d <- NilZero.int_of_string s ;
  let n := Z.of_int d in
  if (Number_toString n =? s)%string then Some n else None.

(* ================================================================== *)
(** * Platform: JSON values and the storage slot *)

(** The values [JSON.parse] returns. A number keeps its lexeme. An
    object lists its own properties, each key once, in the order in
    which they are enumerated. *)
Inductive JSON : Type :=
| JNull
| JBool (b : bool)
| JNumber (lexeme : string)
| JString (s : string)
| JArray (elems : list JSON)
| JObject (props : list (string * JSON)).

(** What a string stored under the key ['todos'] is to the component,
    which only tests it for truthiness and hands it to [JSON.parse]:
    the empty string, some other string outside the JSON grammar, or
    the JSON text of a value. [JSON.stringify] writes the text of the
    value it is given and [JSON.parse] reads that value back. *)
Inductive Item : Type :=
| Empty
| Malformed
| Document (j : JSON).

Inductive Error : Type :=
| SyntaxError
| TypeError.

(** A computation inside a [try] block. *)
Inductive Result (A : Type) : Type :=
| Return (a : A)
| Throw (e : Error).
Arguments Return {A} a.
Arguments Throw {A} e.

Definition bind {A B} (r : Result A) (k : A -> Result B) : Result B :=
  match r with
  | Return a => k a
  | Throw e => Throw e
  end.

Notation "'try' x <- a ; b" := (bind a (fun x => b))
  (at level 10, x name, a at level 100, b at level 200).

(** [JSON.parse(savedTodos)] on a truthy stored string. *)
Definition JSON_parse (i : Item) : Result JSON :=
  match i with
  | Document j => Return j
  | Malformed | Empty => Throw SyntaxError
  end.

(** [d.toJSON()]: [null] for an Invalid Date, else [d.toISOString()]. *)
Definition Date_toJSON (d : Date) : JSON :=
  match d with
  | InvalidDate => JNull
  | TimeValue t => JString (toISOString t)
  end.

(* ================================================================== *)
(** * The component state *)

Record Todo : Type := mkTodo {
  id : string;
  text : string;
  completed : bool;
  createdAt : Date
}.

Inductive Filter : Type := All | Active | Completed.

(** The five [useState] cells. *)
Record State : Type := mkState {
  todos : list Todo;
  inputValue : string;
  filter : Filter;
  editingId : option string;
  editText : string
}.

Definition initial : State := mkState [] "" All None "".

Definition setTodos (l : list Todo) (st : State) : State :=
  mkState l (inputValue st) (filter st) (editingId st) (editText st).
Definition setInputValue (v : string) (st : State) : State :=
  mkState (todos st) v (filter st) (editingId st) (editText st).
Definition setFilter (f : Filter) (st : State) : State :=
  mkState (todos st) (inputValue st) f (editingId st) (editText st).
Definition setEditingId (e : option string) (st : State) : State :=
  mkState (todos st) (inputValue st) (filter st) e (editText st).
Definition setEditText (v : string) (st : State) : State :=
  mkState (todos st) (inputValue st) (filter st) (editingId st) v.

(* ================================================================== *)
(** * The event handlers *)

(** [{ ...todo, completed: !todo.completed }] *)
Definition flipped (todo : Todo) : Todo :=
  mkTodo (id todo) (text todo) (negb (completed todo)) (createdAt todo).

(** [{ ...todo, text: x }] *)
Definition retexted (x : string) (todo : Todo) : Todo :=
  mkTodo (id todo) x (completed todo) (createdAt todo).

(** [addTodo] (lines 41-53); [now] is the reading [Date.now()]
    returns and [now'] the time value of [new Date()]. *)
Definition addTodo (now now' : Z) (st : State) : State :=
  if (trim (inputValue st) =? "")%string then st
  else
    let newTodo :=
      {| id := Number_toString now;
         text := trim (inputValue st);
         completed := false;
         createdAt := TimeValue now' |} in
    setInputValue "" (setTodos (newTodo :: todos st) st).

(** [toggleTodo] (lines 55-61) *)
Definition toggleTodo (id0 : string) (st : State) : State :=
  setTodos
    (map (fun todo =>
            if (id todo =? id0)%string then flipped todo else todo)
         (todos st))
    st.

(** [deleteTodo] (lines 63-65) *)
Definition deleteTodo (id0 : string) (st : State) : State :=
  setTodos (List.filter (fun todo => negb (id todo =? id0)%string) (todos st)) st.

(** [clearCompleted] (lines 67-69) *)
Definition clearCompleted (st : State) : State :=
  setTodos (List.filter (fun todo => negb (completed todo)) (todos st)) st.

(** [startEditing] (lines 71-74) *)
Definition startEditing (todo : Todo) (st : State) : State :=
  setEditText (text todo) (setEditingId (Some (id todo)) st).

(** [saveEdit] (lines 76-86): the guard [editingId && editText.trim()]
    asks for an id that is neither [null] nor the empty string and for
    a text that trims to something. *)
Definition saveEdit (st : State) : State :=
  match editingId st with
  | Some e =>
      if (truthy e && truthy (trim (editText st)))%bool then
        setEditText ""
          (setEditingId None
             (setTodos
                (map (fun todo =>
                        if (id todo =? e)%string
                        then retexted (trim (editText st)) todo
                        else todo)
                     (todos st))
                st))
      else st
  | None => st
  end.

(** [cancelEdit] (lines 88-91) *)
Definition cancelEdit (st : State) : State :=
  setEditText "" (setEditingId None st).

(** * Derived values (lines 93-99) *)

Definition filteredTodos (st : State) : list Todo :=
  List.filter
    (fun todo =>
       match filter st with
       | Active => negb (completed todo)
       | Completed => completed todo
       | All => true
       end)
    (todos st).

Definition itemsLeft (st : State) : nat :=
  List.length (List.filter (fun todo => negb (completed todo)) (todos st)).

(* ================================================================== *)
(** * The two effects: hydration and persistence *)

(** The value [JSON.stringify] makes of one task: its own properties
    in the order the object literal of [addTodo] creates them, the
    Date through [toJSON]. *)
Definition Todo_toJSON (todo : Todo) : JSON :=
  JObject [("id", JString (id todo));
           ("text", JString (text todo));
           ("completed", JBool (completed todo));
           ("createdAt", Date_toJSON (createdAt todo))].

(** The second effect (lines 37-39):
    [localStorage.setItem('todos', JSON.stringify(todos))]. *)
Definition persist (l : list Todo) : Item :=
  Document (JArray (map Todo_toJSON l)).

(** ** The objects of the first effect *)

(** The Date under [createdAt] of a hydrated object: one whose time
    value the model works out, or [new Date(v)] kept as it stands
    where the time value depends on the time zone, on the
    implementation's own string reading or on the rounding of a
    number with a fraction or an exponent. *)
Inductive DateValue : Type :=
| Exact (d : Date)
| DateOf (v : JSON).

(** A property value of a hydrated object: what [JSON.parse] gave, or
    the Date of [createdAt]. *)
Inductive Value : Type :=
| PJson (j : JSON)
| PDate (d : DateValue).

(** An object made by the callback of [parsedTodos.map]: its own
    properties in enumeration order. *)
Definition Obj : Type := list (string * Value).

Fixpoint lookup {A} (key : string) (props : list (string * A)) : option A :=
  match props with
  | [] => None
  | (k, v) :: rest => if (k =? key)%string then Some v else lookup key rest
  end.

(** The index properties ["0"], ["1"], ... of a string or an array,
    from index [i] on. *)
Fixpoint indexed {A} (i : nat) (l : list A) : list (string * A) :=
  match l with
  | [] => []
  | a :: l' => (Number_toString (Z.of_nat i), a) :: indexed (S i) l'
  end.

Fixpoint codeUnits (s : string) : list JSON :=
  match s with
  | EmptyString => []
  | String c s' => JString (String c EmptyString) :: codeUnits s'
  end.

(** [{...todo}]: the own enumerable properties of [todo]. An object
    gives its properties, a string and an array their index
    properties, [null], a boolean and a number none. *)
Definition spread (todo : JSON) : Obj :=
  map (fun p => (fst p, PJson (snd p)))
      match todo with
      | JObject props => props
      | JArray elems => indexed 0 elems
      | JString s => indexed 0 (codeUnits s)
      | JNull | JBool _ | JNumber _ => []
      end.

(** [todo.createdAt]: reading a property off [null] throws; an object
    gives its own property or [undefined] ([None]), every other value
    [undefined]. *)
Definition createdAtOf (todo : JSON) : Result (option JSON) :=
  match todo with
  | JNull => Throw TypeError
  | JObject props => Return (lookup "createdAt" props)
  | _ => Return None
  end.

(** [{...o, key: v}] : the property is replaced where it stands, or
    added last. *)
Fixpoint assign (key : string) (v : Value) (o : Obj) : Obj :=
  match o with
  | [] => [(key, v)]
  | (k, w) :: rest =>
      if (k =? key)%string then (k, v) :: rest else (k, w) :: assign key v rest
  end.

(** Whether converting a parsed value to a primitive throws. An
    object from [JSON.parse] inherits [toString] and [valueOf] from
    [Object.prototype] unless it has an own property of that name,
    which is never callable: with an own [toString] no method returns
    a primitive. An array is joined, which converts its elements,
    [null] apart, in the same way. *)
Fixpoint unprintable (v : JSON) : bool :=
  match v with
  | JObject props => existsb (fun p => (fst p =? "toString")%string) props
  | JArray elems => existsb unprintable elems
  | _ => false
  end.

(** The Date [new Date(v)] makes once [v] has been converted to a
    primitive, [v] undefined being [None]. [undefined] gives an
    Invalid Date, [null] and [false] the epoch, [true] one millisecond
    after it, an integer that time value when in range and an Invalid
    Date otherwise, a string what [Date.parse] gives. *)
Definition timeValueOf (v : option JSON) : DateValue :=
  match v with
  | None => Exact InvalidDate
  | Some JNull => Exact (TimeValue 0)
  | Some (JBool b) => Exact (TimeValue (if b then 1 else 0))
  | Some (JNumber lexeme) =>
      match readInteger lexeme with
      | Some n => Exact (if inTimeRange n then TimeValue n else InvalidDate)
      | None => DateOf (JNumber lexeme)
      end
  | Some (JString s) =>
      match Date_parse s with
      | Some t => Exact (TimeValue t)
      | None => DateOf (JString s)
      end
  | Some (JArray elems) => DateOf (JArray elems)
  | Some (JObject props) => DateOf (JObject props)
  end.

(** [new Date(v)] *)
Definition new_Date (v : option JSON) : Result DateValue :=
  match v with
  | Some v' =>
      if unprintable v' then Throw TypeError else Return (timeValueOf v)
  | None => Return (timeValueOf v)
  end.

(** The callback of [parsedTodos.map] (lines 25-28):
    [{...todo, createdAt: new Date(todo.createdAt)}]. *)
Definition withDate (todo : JSON) : Result Obj :=
  try v <- createdAtOf todo ;
  try d <- new_Date v ;
  Return (assign "createdAt" (PDate d) (spread todo)).

Fixpoint mapResult {A B} (f : A -> Result B) (l : list A) : Result (list B) :=
  match l with
  | [] => Return []
  | a :: l' =>
      try b <- f a ;
      try bs <- mapResult f l' ;
      Return (b :: bs)
  end.

(** The body of the [try] block up to the argument of [setTodos]:
    [parsedTodos.map] is a function only on an array. *)
Definition decode (savedTodos : Item) : Result (list Obj) :=
  try parsedTodos <- JSON_parse savedTodos ;
  match parsedTodos with
  | JArray elems => mapResult withDate elems
  | _ => Throw TypeError
  end.

(** What the first effect (lines 19-34) does with what [getItem]
    returned, [None] being [null]: nothing, one call of [setTodos], or
    one call of [console.error]. No exception leaves the [try]
    block. *)
Inductive Effect : Type :=
| NoCall
| SetTodos (todosWithDates : list Obj)
| Logs (error : Error).

Definition firstEffect (savedTodos : option Item) : Effect :=
  match savedTodos with
  | None | Some Empty => NoCall
  | Some item =>
      match decode item with
      | Return todosWithDates => SetTodos todosWithDates
      | Throw e => Logs e
      end
  end.

(** Whether the callback throws on an element. *)
Definition spoiled (todo : JSON) : bool :=
  match todo with
  | JNull => true
  | JObject props =>
      match lookup "createdAt" props with
      | Some v => unprintable v
      | None => false
      end
  | _ => false
  end.

(** ** The tasks of the first effect *)

(** A hydrated object as the [Todo] of lines 4-9: its [id] and [text]
    strings, its [completed] a boolean, its [createdAt] a Date whose
    time value is worked out. A [Todo] says nothing of where the
    properties stand or of further properties: the component reads
    [id], [text] and [completed] only, and the rest shows in the text
    [JSON.stringify] makes of the object alone ([persist] is the text
    of tasks as [addTodo] makes them). [None] for an object with one
    of the three missing or of another type, or with a Date left as
    [DateOf]. *)
Definition asTodo (o : Obj) : option Todo :=
  match lookup "id" o, lookup "text" o, lookup "completed" o,
        lookup "createdAt" o with
  | Some (PJson (JString i)), Some (PJson (JString x)),
    Some (PJson (JBool c)), Some (PDate (Exact d)) => Some (mkTodo i x c d)
  | _, _, _, _ => None
  end.

Fixpoint allSome {A} (l : list (option A)) : option (list A) :=
  match l with
  | [] => Some []
  | Some a :: l' => do r <- allSome l' ; Some (a :: r)
  | None :: _ => None
  end.

(** The first effect in terms of tasks. *)
Inductive Hydration : Type :=
| Skipped                        (* [savedTodos] is falsy *)
| Hydrated (l : list Todo)       (* [setTodos(todosWithDates)] *)
| Foreign                        (* [setTodos] with an object [asTodo] has no task for *)
| Caught (e : Error).            (* [console.error(..., error)] *)

Definition loadEffect (savedTodos : option Item) : Hydration :=
  match firstEffect savedTodos with
  | NoCall => Skipped
  | SetTodos todosWithDates =>
      match allSome (map asTodo todosWithDates) with
      | Some l => Hydrated l
      | None => Foreign
      end
  | Logs e => Caught e
  end.

(** The component after mounting: its state and what was written to
    the console. [None] when the list was set to objects that
    [asTodo] has no task for. *)
Definition mount (savedTodos : option Item) : option (State * list Error) :=
  match loadEffect savedTodos with
  | Skipped => Some (initial, [])
  | Hydrated l => Some (setTodos l initial, [])
  | Caught e => Some (initial, [e])
  | Foreign => None
  end.

(** ** A stored task that is loaded again *)

(** The [createdAt] of a task that was stored and is loaded again. *)
Definition reloadedDate (d : Date) : option Date :=
  match timeValueOf (Some (Date_toJSON d)) with
  | Exact d' => Some d'
  | DateOf _ => None
  end.

(** A task that was stored and is loaded again. *)
Definition reloaded (t : Todo) : option Todo :=
  match reloadedDate (createdAt t) with
  | Some d => Some (mkTodo (id t) (text t) (completed t) d)
  | None => None
  end.

(** The object the callback makes of a stored task. *)
Definition reloadedObject (t : Todo) : Obj :=
  [("id", PJson (JString (id t)));
   ("text", PJson (JString (text t)));
   ("completed", PJson (JBool (completed t)));
   ("createdAt", PDate (timeValueOf (Some (Date_toJSON (createdAt t)))))].

(* ================================================================== *)
(** * The store operations and runs of the component *)

(** add(text): the text is typed into the input, then [addTodo] runs. *)
Definition add (v : string) (now now' : Z) (st : State) : State :=
  addTodo now now' (setInputValue v st).

(** edit(id, newText): [startEditing] on the task, the new text typed
    into the edit field, then [saveEdit]. *)
Definition edit (todo : Todo) (newText : string) (st : State) : State :=
  saveEdit (setEditText newText (startEditing todo st)).

Inductive Event : Type :=
| Input (v : string)
| AddTodo (now now' : Z)
| ToggleTodo (id0 : string)
| DeleteTodo (id0 : string)
| ClearCompleted
| StartEditing (todo : Todo)
| EditInput (v : string)
| SaveEdit
| CancelEdit
| SetFilter (f : Filter)
| Reload.

(** One event. [Reload] mounts the component anew on the text the
    second effect makes of the list, taking the write of that text
    (line 38) to have gone through. *)
Definition handle (e : Event) (st : State) : option State :=
  match e with
  | Input v => Some (setInputValue v st)
  | AddTodo now now' => Some (addTodo now now' st)
  | ToggleTodo i => Some (toggleTodo i st)
  | DeleteTodo i => Some (deleteTodo i st)
  | ClearCompleted => Some (clearCompleted st)
  | StartEditing todo => Some (startEditing todo st)
  | EditInput v => Some (setEditText v st)
  | SaveEdit => Some (saveEdit st)
  | CancelEdit => Some (cancelEdit st)
  | SetFilter f => Some (setFilter f st)
  | Reload =>
      do (st', _) <- mount (Some (persist (todos st))) ; Some st'
  end.

Fixpoint run (evs : list Event) (st : State) : option State :=
  match evs with
  | [] => Some st
  | e :: evs' => do st' <- handle e st ; run evs' st'
  end.

(** The readings of [Date.now()] that a run's [addTodo] calls use. *)
Fixpoint readings (evs : list Event) (st : State) : list Z :=
  match evs with
  | [] => []
  | e :: evs' =>
      match handle e st with
      | Some st' =>
          match e with
          | AddTodo now _ =>
              if (trim (inputValue st) =? "")%string then readings evs' st'
              else now :: readings evs' st'
          | _ => readings evs' st'
          end
      | None => []
      end
  end.

(** The ids [addTodo] assigns along a run, oldest first. *)
Definition issued (evs : list Event) (st : State) : list string :=
  map Number_toString (readings evs st).

Definition ids (st : State) : list string := map id (todos st).

(** An event whose [new Date()] holds a time value, as the clock
    gives it. *)
Definition timely (e : Event) : Prop :=
  match e with
  | AddTodo _ now' => inTimeRange now' = true
  | _ => True
  end.

(** A task whose [createdAt] is a valid Date. *)
Definition dated (t : Todo) : Prop := validDate (createdAt t) = true.

(** [l1] is [l2] with some elements left out, the others in place. *)
Inductive Subsequence {A} : list A -> list A -> Prop :=
| sub_nil : Subsequence [] []
| sub_skip x l1 l2 : Subsequence l1 l2 -> Subsequence l1 (x :: l2)
| sub_keep x l1 l2 : Subsequence l1 l2 -> Subsequence (x :: l1) (x :: l2).

(** [res] is exactly the elements of [l] that satisfy [p], in the
    order of [l]: it is taken in order from [l], holds only elements
    satisfying [p], and whatever else is taken in order from [l] and
    satisfies [p] throughout can be taken from [res]. *)
Definition Selects {A} (p : A -> bool) (res l : list A) : Prop :=
  Subsequence res l
  /\ (forall x, In x res <-> In x l /\ p x = true)
  /\ (forall l', Subsequence l' l -> Forall (fun x => p x = true) l' ->
                 Subsequence l' res).

(** A text as a task may carry it: not empty, nothing to trim. *)
Definition trimmedNonEmpty (s : string) : Prop :=
  s <> "" /\ trim s = s.

(** A task as [addTodo] and [saveEdit] leave it. *)
Definition tidy (t : Todo) : Prop :=
  trimmedNonEmpty (text t) /\ id t <> "".

(* ================================================================== *)
(** * Key handlers and the rendered list *)

(** [if (editingId)]: an edit is under way when [editingId] is neither
    [null] nor the empty string. *)
Definition editingNow (st : State) : bool :=
  match editingId st with
  | Some e => truthy e
  | None => false
  end.

(** [handleKeyPress] (lines 101-109) *)
Definition handleKeyPress (key : string) (now now' : Z) (st : State) : State :=
  if (key =? "Enter")%string then
    if editingNow st then saveEdit st else addTodo now now' st
  else st.

(** [handleInputKeyPress] (lines 111-115), the [onKeyPress] of the
    input of new tasks. *)
Definition handleInputKeyPress (key : string) (now now' : Z) (st : State) : State :=
  if (key =? "Enter")%string then addTodo now now' st else st.

(** The [onKeyDown] of the edit field (lines 233-236): two tests in a
    row, on one key. *)
Definition editKeyDown (key : string) (st : State) : State :=
  let st1 := if (key =? "Enter")%string then saveEdit st else st in
  if (key =? "Escape")%string then cancelEdit st1 else st1.

(** [editingId === todo.id] (line 227) *)
Definition inEdit (st : State) (todo : Todo) : bool :=
  match editingId st with
  | Some e => (e =? id todo)%string
  | None => false
  end.

(** A rendered task: the edit field holding [editText], or the text
    of the task. *)
Inductive Row : Type :=
| EditRow (todo : Todo) (value : string)
| ViewRow (todo : Todo).

(** What stands in the place of the list (lines 190-287): a message
    when [filteredTodos] is empty, else one row per filtered task. *)
Inductive Listing : Type :=
| Message (s : string)
| Rows (l : list Row).

Definition listing (st : State) : Listing :=
  if Nat.eqb (List.length (filteredTodos st)) 0 then
    Message (match filter st with
             | Completed => "No completed tasks yet"
             | Active => "All tasks completed!"
             | All => "Add your first task!"
             end)
  else
    Rows (map (fun todo =>
                 if inEdit st todo then EditRow todo (editText st)
                 else ViewRow todo)
              (filteredTodos st)).

(** The second version of the component shows
    [todos.length - itemsLeft] as the number of completed tasks
    (line 417) and offers "Clear Completed" under
    [todos.some(todo => todo.completed)] (line 493). *)
Definition completedShown (st : State) : Z :=
  Z.of_nat (List.length (todos st)) - Z.of_nat (itemsLeft st).

Definition clearOffered (st : State) : bool :=
  existsb (fun todo => completed todo) (todos st).

(* ================================================================== *)
(** * What a task keeps *)

(** What never changes of a task: its id and its creation time. *)
Definition stamp (t : Todo) : string * Date := (id t, createdAt t).

(** The stamps [addTodo] gives out along a run, oldest first. *)
Fixpoint stamped (evs : list Event) (st : State) : list (string * Date) :=
  match evs with
  | [] => []
  | e :: evs' =>
      match handle e st with
      | Some st' =>
          match e with
          | AddTodo now now' =>
              if (trim (inputValue st) =? "")%string then stamped evs' st'
              else (Number_toString now, TimeValue now') :: stamped evs' st'
          | _ => stamped evs' st'
          end
      | None => []
      end
  end.

(* ================================================================== *)
(** * Facts about the platform functions *)

Lemma trimEnd_head c s :
  isWhiteSpace c = false -> exists r, trimEnd (String c s) = String c r.
Proof.
  intros Hc. simpl. destruct (trimEnd s); rewrite ?Hc; eauto.
Qed.

Lemma trimEnd_idempotent s : trimEnd (trimEnd s) = trimEnd s.
Proof.
  induction s as [|c s IH]; simpl; [reflexivity|].
  destruct (trimEnd s) as [|a r] eqn:E.
  - destruct (isWhiteSpace c) eqn:Hc; simpl; rewrite ?Hc; reflexivity.
  - change (trimEnd (String c (String a r)))
      with (match trimEnd (String a r) with
            | EmptyString =>
                if isWhiteSpace c then EmptyString else String c EmptyString
            | r' => String c r'
            end).
    rewrite IH. reflexivity.
Qed.

Lemma trimStart_head s :
  trimStart s = EmptyString
  \/ exists c r, trimStart s = String c r /\ isWhiteSpace c = false.
Proof.
  induction s as [|c s IH]; simpl; [now left|].
  destruct (isWhiteSpace c) eqn:Hc; [exact IH|].
  right. eauto.
Qed.

Lemma trimStart_fixed c s :
  isWhiteSpace c = false -> trimStart (String c s) = String c s.
Proof. intros Hc. simpl. now rewrite Hc. Qed.

(** Trimming a trimmed string changes nothing. *)
Lemma trim_idempotent s : trim (trim s) = trim s.
Proof.
  unfold trim.
  destruct (trimStart_head s) as [E | (c & r & E & Hc)]; rewrite E.
  - reflexivity.
  - destruct (trimEnd_head c r Hc) as [r' E'].
    rewrite E'. rewrite (trimStart_fixed _ _ Hc). rewrite <- E'.
    apply trimEnd_idempotent.
Qed.

Lemma truthy_spec s : truthy s = true <-> s <> "".
Proof.
  unfold truthy. destruct (String.eqb_spec s ""); simpl; split; congruence.
Qed.

Lemma to_int_proper z : Z.to_int z <> Decimal.Pos Decimal.Nil
                        /\ Z.to_int z <> Decimal.Neg Decimal.Nil.
Proof.
  destruct z; simpl; split; try discriminate; intros [= H];
    now apply DecimalPos.Unsigned.to_uint_nonnil in H.
Qed.

(** Distinct numbers print differently. *)
Lemma Number_toString_inj a b :
  Number_toString a = Number_toString b -> a = b.
Proof.
  unfold Number_toString. intros H.
  apply DecimalZ.to_int_inj.
  destruct (to_int_proper a) as [Ha1 Ha2], (to_int_proper b) as [Hb1 Hb2].
  pose proof (NilZero.isi _ Ha1 Ha2) as Ea.
  pose proof (NilZero.isi _ Hb1 Hb2) as Eb.
  rewrite H in Ea. congruence.
Qed.

Lemma Number_toString_nonempty a : Number_toString a <> "".
Proof.
  unfold Number_toString. intros H.
  destruct (to_int_proper a) as [H1 H2].
  pose proof (NilZero.isi _ H1 H2) as E. rewrite H in E. discriminate.
Qed.

(* ================================================================== *)
(** * Facts about lists and the state cells *)

Lemma setTodos_same st : setTodos (todos st) st = st.
Proof. now destruct st. Qed.

Section Lists.
Context {A : Type} (f : A -> bool).

Lemma filter_all_true l :
  (forall x, In x l -> f x = true) -> List.filter f l = l.
Proof.
  induction l as [|a l IH]; simpl; intros H; [reflexivity|].
  rewrite (H a) by now left. f_equal. apply IH. intros x Hx. apply H. now right.
Qed.

Lemma filter_idempotent l :
  List.filter f (List.filter f l) = List.filter f l.
Proof.
  apply filter_all_true. intros x Hx. now apply filter_In in Hx.
Qed.

Lemma Subsequence_filter l :
  Subsequence (List.filter f l) l.
Proof.
  induction l as [|a l IH]; simpl; [constructor|].
  destruct (f a); now constructor.
Qed.

Lemma Subsequence_into_filter l' l :
  Subsequence l' l -> Forall (fun x => f x = true) l' ->
  Subsequence l' (List.filter f l).
Proof.
  induction 1 as [|x l1 l2 _ IH|x l1 l2 _ IH]; intros HF; simpl.
  - constructor.
  - destruct (f x); [constructor|]; now apply IH.
  - inversion HF as [|? ? Hx HF']; subst. rewrite Hx.
    apply sub_keep. now apply IH.
Qed.

End Lists.

Lemma map_fixed {A} (f : A -> A) l :
  (forall x, In x l -> f x = x) -> map f l = l.
Proof.
  induction l as [|a l IH]; simpl; intros H; [reflexivity|].
  rewrite (H a) by now left. f_equal. apply IH. intros x Hx. apply H. now right.
Qed.

Lemma id_not_in (i : string) l :
  ~ In i (map id l) -> forall t, In t l -> (id t =? i)%string = false.
Proof.
  intros H t Ht. apply String.eqb_neq. intros E. apply H. subst.
  now apply in_map.
Qed.

(* ================================================================== *)
(** * The handlers on the list *)

Lemma flipped_flipped t : flipped (flipped t) = t.
Proof. destruct t; unfold flipped; simpl. now rewrite negb_involutive. Qed.

Lemma toggleTodo_todos i st :
  todos (toggleTodo i st)
  = map (fun t => if (id t =? i)%string then flipped t else t) (todos st).
Proof. reflexivity. Qed.

(** What [edit] leaves in the list: the guard of [saveEdit] needs a
    truthy [editingId] and a truthy trimmed text. *)
Lemma edit_todos todo newText st :
  todos (edit todo newText st)
  = if (truthy (id todo) && truthy (trim newText))%bool
    then map (fun t => if (id t =? id todo)%string
                       then retexted (trim newText) t else t) (todos st)
    else todos st.
Proof.
  unfold edit, saveEdit, startEditing. simpl.
  destruct (truthy (id todo) && truthy (trim newText))%bool; reflexivity.
Qed.

(** C4: toggling the same id twice gives back the state; one toggle
    flips [completed] of every task at a position holding that id; with
    no task of that id the state is left as it is. *)
Theorem toggleTodo_involutive : forall (st : State) (i : string),
  toggleTodo i (toggleTodo i st) = st
  /\ (forall n t, nth_error (todos st) n = Some t -> id t = i ->
      exists t', nth_error (todos (toggleTodo i st)) n = Some t'
                 /\ completed t' = negb (completed t))
  /\ (~ In i (ids st) -> toggleTodo i st = st).
Proof.
  intros st i. split; [|split].
  - unfold toggleTodo at 1. rewrite toggleTodo_todos. simpl.
    rewrite map_map.
    rewrite map_fixed.
    + now destruct st.
    + intros t _. destruct (String.eqb_spec (id t) i) as [E|E].
      * unfold flipped at 2. simpl. rewrite E, String.eqb_refl.
        rewrite <- E. apply flipped_flipped.
      * now apply String.eqb_neq in E as ->.
  - intros n t Hn Hi. rewrite toggleTodo_todos, nth_error_map, Hn. simpl.
    rewrite Hi, String.eqb_refl. eexists; split; reflexivity.
  - intros Hi. unfold toggleTodo. rewrite map_fixed.
    + apply setTodos_same.
    + intros t Ht. now rewrite (id_not_in i _ Hi t Ht).
Qed.

Lemma toggleTodo_involutive_witness :
  let st := mkState [mkTodo "7" "Walk dog" false (TimeValue 8);
                     mkTodo "5" "Buy milk" false (TimeValue 6)] "" All None "" in
  (exists t', nth_error (todos (toggleTodo "5" st)) 1 = Some t'
              /\ completed t' = negb false)
  /\ toggleTodo "9" st = st.
Proof.
  intros st. destruct (toggleTodo_involutive st "5") as (_ & H & _).
  destruct (toggleTodo_involutive st "9") as (_ & _ & H9).
  split.
  - apply (H 1%nat (mkTodo "5" "Buy milk" false (TimeValue 6))); reflexivity.
  - apply H9. simpl. intros [E|[E|[]]]; discriminate.
Defined.

(** C9: deleting an id a second time changes nothing, and deleting an
    id that no task has leaves the state as it is. *)
Theorem deleteTodo_idempotent : forall (st : State) (i : string),
  deleteTodo i (deleteTodo i st) = deleteTodo i st
  /\ (~ In i (ids st) -> deleteTodo i st = st).
Proof.
  intros st i. split.
  - unfold deleteTodo. simpl. now rewrite filter_idempotent.
  - intros Hi. unfold deleteTodo. rewrite filter_all_true.
    + apply setTodos_same.
    + intros t Ht. now rewrite (id_not_in i _ Hi t Ht).
Qed.

Lemma deleteTodo_idempotent_witness :
  let st := mkState [mkTodo "7" "Walk dog" false (TimeValue 8)] "" All None "" in
  deleteTodo "9" st = st.
Proof.
  intros st. apply (deleteTodo_idempotent st "9").
  simpl. intros [E|[]]; discriminate.
Defined.

(** C6: [clearCompleted] removes exactly the completed tasks: what is
    left are the tasks of the list that are not completed, in their
    order, and every selection of uncompleted tasks taken in order from
    the old list can still be taken from the new one. *)
Theorem clearCompleted_exact : forall (st : State),
  (forall t, In t (todos (clearCompleted st))
             <-> In t (todos st) /\ completed t = false)
  /\ Subsequence (todos (clearCompleted st)) (todos st)
  /\ (forall l, Subsequence l (todos st) ->
                Forall (fun t => completed t = false) l ->
                Subsequence l (todos (clearCompleted st))).
Proof.
  intros st. unfold clearCompleted. simpl. split; [|split].
  - intros t. rewrite filter_In. now rewrite negb_true_iff.
  - apply Subsequence_filter.
  - intros l Hl HF. apply Subsequence_into_filter; [exact Hl|].
    eapply Forall_impl; [|exact HF]. simpl. intros t ->. reflexivity.
Qed.

Lemma clearCompleted_exact_witness :
  let a := mkTodo "7" "Walk dog" false (TimeValue 8) in
  let b := mkTodo "5" "Buy milk" true (TimeValue 6) in
  let c := mkTodo "3" "Sleep" false (TimeValue 2) in
  let st := mkState [a; b; c] "" All None "" in
  In c (todos (clearCompleted st))
  /\ Subsequence [a; c] (todos (clearCompleted st)).
Proof.
  intros a b c st. destruct (clearCompleted_exact st) as (HIn & _ & Hmax).
  split.
  - apply HIn. split; [simpl; auto|reflexivity].
  - apply Hmax.
    + apply sub_keep, sub_skip, sub_keep, sub_nil.
    + repeat constructor.
Defined.

(** C10: [toggleTodo] and [edit] keep the length of the list and, at
    every position, the task's [id] and [createdAt]; [toggleTodo] also
    keeps every [text] and changes [completed] only where the id
    matches; [edit] also keeps every [completed] and changes [text]
    only where the id matches, to the trimmed new text; tasks of other
    ids stay as they are. *)
Theorem toggle_edit_frame : forall (st : State),
  (forall i,
      List.length (todos (toggleTodo i st)) = List.length (todos st)
      /\ forall n t, nth_error (todos st) n = Some t ->
           exists t', nth_error (todos (toggleTodo i st)) n = Some t'
             /\ id t' = id t /\ text t' = text t /\ createdAt t' = createdAt t
             /\ (id t <> i -> t' = t)
             /\ (id t = i -> completed t' = negb (completed t)))
  /\ (forall todo newText,
      List.length (todos (edit todo newText st)) = List.length (todos st)
      /\ forall n t, nth_error (todos st) n = Some t ->
           exists t', nth_error (todos (edit todo newText st)) n = Some t'
             /\ id t' = id t /\ completed t' = completed t
             /\ createdAt t' = createdAt t
             /\ (id t <> id todo -> t' = t)
             /\ (t' = t \/ (id t = id todo /\ text t' = trim newText))).
Proof.
  intros st. split.
  - intros i. rewrite toggleTodo_todos. split; [apply length_map|].
    intros n t Hn. rewrite nth_error_map, Hn. simpl.
    destruct (String.eqb_spec (id t) i) as [E|E];
      eexists; (split; [reflexivity|]); simpl; repeat split; congruence.
  - intros todo newText. rewrite edit_todos.
    destruct (truthy (id todo) && truthy (trim newText))%bool.
    + split; [apply length_map|].
      intros n t Hn. rewrite nth_error_map, Hn. simpl.
      destruct (String.eqb_spec (id t) (id todo)) as [E|E];
        eexists; (split; [reflexivity|]); simpl; repeat split;
        solve [congruence | now left | now right].
    + split; [reflexivity|]. intros n t Hn. exists t.
      repeat split; auto.
Qed.

Lemma toggle_edit_frame_witness :
  let a := mkTodo "7" "Walk dog" false (TimeValue 8) in
  let b := mkTodo "5" "Buy milk" false (TimeValue 6) in
  let st := mkState [a; b] "" All None "" in
  (exists t', nth_error (todos (toggleTodo "5" st)) 0 = Some t'
     /\ id t' = "7" /\ text t' = "Walk dog" /\ createdAt t' = TimeValue 8
     /\ ("7" <> "5" -> t' = a)
     /\ ("7" = "5" -> completed t' = negb false))
  /\ (exists t', nth_error (todos (edit b "  new  " st)) 1 = Some t'
     /\ id t' = "5" /\ completed t' = false /\ createdAt t' = TimeValue 6
     /\ ("5" <> "5" -> t' = b)
     /\ (t' = b \/ ("5" = "5" /\ text t' = trim "  new  "))).
Proof.
  intros a b st. destruct (toggle_edit_frame st) as [Ht He]. split.
  - apply (proj2 (Ht "5") 0%nat a). reflexivity.
  - apply (proj2 (He b "  new  ") 1%nat b). reflexivity.
Defined.

Lemma Selects_filter {A} (p : A -> bool) l : Selects p (List.filter p l) l.
Proof.
  split; [apply Subsequence_filter|split].
  - intros x. apply filter_In.
  - intros l' Hl HF. now apply Subsequence_into_filter.
Qed.

(* ================================================================== *)
(** * Adding a task *)

Lemma add_nonblank st v now now' :
  trim v <> "" ->
  add v now now' st
  = mkState (mkTodo (Number_toString now) (trim v) false (TimeValue now')
               :: todos st)
            "" (filter st) (editingId st) (editText st).
Proof.
  intros H. unfold add, addTodo. simpl.
  now apply String.eqb_neq in H as ->.
Qed.

Lemma add_blank st v now now' :
  trim v = "" -> add v now now' st = setInputValue v st.
Proof.
  intros H. unfold add, addTodo. simpl. now rewrite H.
Qed.

(** C3 (as the code has it): for an input whose trimmed form is not
    empty, [add] puts one new task in front of the list, with the
    trimmed input as text, not completed, and the decimal string of
    the reading of [Date.now()] as id; that id is not in the list yet
    when every id there is the decimal string of another reading. For
    an input whose trimmed form is empty the list stays as it is. *)
Theorem add_prepends : forall (st : State) (v : string) (now now' : Z),
  (trim v <> "" ->
     todos (add v now now' st)
     = mkTodo (Number_toString now) (trim v) false (TimeValue now') :: todos st
     /\ List.length (todos (add v now now' st)) = S (List.length (todos st))
     /\ ((forall t, In t (todos st) ->
                    exists r, id t = Number_toString r /\ r <> now) ->
         ~ In (Number_toString now) (ids st)))
  /\ (trim v = "" -> todos (add v now now' st) = todos st).
Proof.
  intros st v now now'. split.
  - intros H. rewrite (add_nonblank _ _ _ _ H). simpl.
    split; [reflexivity|split; [reflexivity|]].
    intros Hids Hin. unfold ids in Hin. apply in_map_iff in Hin.
    destruct Hin as (t & Et & Ht).
    destruct (Hids t Ht) as (r & Er & Hr).
    apply Hr. apply Number_toString_inj. congruence.
  - intros H. now rewrite (add_blank _ _ _ _ H).
Qed.

Lemma add_prepends_witness :
  let st := add "Buy milk" 5 6 initial in
  (todos (add " Walk dog " 7 8 st)
   = mkTodo "7" "Walk dog" false (TimeValue 8) :: todos st
   /\ List.length (todos (add " Walk dog " 7 8 st)) = 2%nat
   /\ ~ In "7" (ids st))
  /\ todos (add "   " 7 8 st) = todos st
  /\ todos (add "" 7 8 st) = todos st.
Proof.
  intros st.
  destruct (add_prepends st " Walk dog " 7 8) as [H _].
  destruct (add_prepends st "   " 7 8) as [_ Hb].
  destruct (add_prepends st "" 7 8) as [_ He].
  split; [|split].
  - destruct H as (H1 & H2 & H3); [discriminate|].
    split; [exact H1|split; [exact H2|]].
    apply H3. intros t [<-|[]]. exists 5. split; [reflexivity|discriminate].
  - apply Hb. reflexivity.
  - apply He. reflexivity.
Defined.

(** C3 as stated fails: a second [add] at the same reading of
    [Date.now()] creates a task whose id is in the list already. *)
Lemma add_id_not_fresh :
  ~ (forall (st : State) (v : string) (now now' : Z),
       trim v <> "" ->
       exists t, hd_error (todos (add v now now' st)) = Some t
                 /\ ~ In (id t) (ids st)).
Proof.
  intros H.
  destruct (H (add "a" 5 5 initial) "b" 5 5) as (t & Ht & Hfresh);
    [discriminate|].
  injection Ht as <-. apply Hfresh. simpl. now left.
Qed.

(* ================================================================== *)
(** * Storing the list and loading it again *)

Lemma withDate_toJSON t : withDate (Todo_toJSON t) = Return (reloadedObject t).
Proof.
  unfold withDate, Todo_toJSON, reloadedObject, new_Date.
  destruct (createdAt t) as [|ms]; reflexivity.
Qed.

Lemma asTodo_reloadedObject t : asTodo (reloadedObject t) = reloaded t.
Proof.
  unfold reloaded, reloadedDate, asTodo, reloadedObject.
  cbn [lookup String.eqb Ascii.eqb Bool.eqb].
  now destruct (timeValueOf (Some (Date_toJSON (createdAt t)))).
Qed.

Lemma mapResult_map {A B C} (f : B -> Result C) (h : A -> B) (g : A -> C) l :
  (forall a, f (h a) = Return (g a)) ->
  mapResult f (map h l) = Return (map g l).
Proof.
  intros H. induction l as [|a l IH]; simpl; [reflexivity|].
  now rewrite H, IH.
Qed.

Lemma decode_persist l : decode (persist l) = Return (map reloadedObject l).
Proof.
  unfold decode, persist. simpl.
  apply mapResult_map. exact withDate_toJSON.
Qed.

Lemma firstEffect_persist l :
  firstEffect (Some (persist l)) = SetTodos (map reloadedObject l).
Proof.
  unfold firstEffect. change (persist l) with (Document (JArray (map Todo_toJSON l))).
  cbv iota. fold (persist l). now rewrite decode_persist.
Qed.

(** Loading what [persist] stored never throws and never skips. *)
Lemma loadEffect_persist l :
  loadEffect (Some (persist l))
  = match allSome (map reloaded l) with
    | Some l' => Hydrated l'
    | None => Foreign
    end.
Proof.
  unfold loadEffect. rewrite firstEffect_persist, map_map.
  now rewrite (map_ext _ _ asTodo_reloadedObject).
Qed.

Lemma allSome_reloaded l l' :
  allSome (map reloaded l) = Some l' ->
  Forall2 (fun t t' => id t' = id t /\ text t' = text t
                       /\ completed t' = completed t
                       /\ reloadedDate (createdAt t) = Some (createdAt t')) l l'.
Proof.
  revert l'. induction l as [|t l IH]; simpl; intros l' H.
  - injection H as <-. constructor.
  - unfold reloaded at 1 in H.
    destruct (reloadedDate (createdAt t)) as [d|] eqn:Ed; [|discriminate].
    destruct (allSome (map reloaded l)) as [r|]; [|discriminate].
    injection H as <-. constructor; [|now apply IH].
    simpl. auto.
Qed.

(** A task whose date comes back the same comes back the same. *)
Lemma allSome_reloaded_same l :
  Forall (fun t => reloadedDate (createdAt t) = Some (createdAt t)) l ->
  allSome (map reloaded l) = Some l.
Proof.
  induction 1 as [|t l Ht _ IH]; simpl; [reflexivity|].
  unfold reloaded at 1. rewrite Ht, IH. now destruct t.
Qed.

Lemma handle_Reload st st' :
  handle Reload st = Some st' ->
  exists l', st' = setTodos l' initial
             /\ Forall2 (fun t t' => id t' = id t /\ text t' = text t
                           /\ completed t' = completed t
                           /\ reloadedDate (createdAt t) = Some (createdAt t'))
                  (todos st) l'.
Proof.
  unfold handle, mount. rewrite loadEffect_persist.
  destruct (allSome (map reloaded (todos st))) as [l'|] eqn:E; [|discriminate].
  intros [= <-]. exists l'. split; [reflexivity|]. now apply allSome_reloaded.
Qed.

(* ================================================================== *)
(** * Runs *)

Lemma run_invariant (P : State -> Prop) :
  (forall e st st', P st -> handle e st = Some st' -> P st') ->
  forall evs st st', P st -> run evs st = Some st' -> P st'.
Proof.
  intros Hstep evs. induction evs as [|e evs IH]; simpl; intros st st' HP H.
  - now injection H as <-.
  - destruct (handle e st) as [st1|] eqn:E; [|discriminate].
    eapply IH; [|exact H]. eapply Hstep; eassumption.
Qed.

Lemma trimmedNonEmpty_trim s : trim s <> "" -> trimmedNonEmpty (trim s).
Proof. intros H. split; [exact H|apply trim_idempotent]. Qed.

Lemma Forall_filter_keeps {A} (P : A -> Prop) (f : A -> bool) l :
  Forall P l -> Forall P (List.filter f l).
Proof.
  rewrite !Forall_forall. intros H x Hx. apply H. now apply filter_In in Hx.
Qed.

Lemma tidy_flipped t : tidy t -> tidy (flipped t).
Proof. now destruct t. Qed.

Lemma tidy_retexted x t : trimmedNonEmpty x -> tidy t -> tidy (retexted x t).
Proof. intros Hx [_ Hi]. split; assumption. Qed.

Lemma tidy_addTodo now now' st :
  Forall tidy (todos st) -> Forall tidy (todos (addTodo now now' st)).
Proof.
  intros H. unfold addTodo.
  destruct (String.eqb_spec (trim (inputValue st)) "") as [E|E]; [exact H|].
  simpl. constructor; [|exact H]. split; simpl.
  - now apply trimmedNonEmpty_trim.
  - apply Number_toString_nonempty.
Qed.

Lemma tidy_saveEdit st :
  Forall tidy (todos st) -> Forall tidy (todos (saveEdit st)).
Proof.
  intros H. unfold saveEdit. destruct (editingId st) as [e|]; [|exact H].
  destruct (truthy e); simpl; [|exact H].
  destruct (truthy (trim (editText st))) eqn:Et; simpl; [|exact H].
  apply truthy_spec in Et.
  apply Forall_map. eapply Forall_impl; [|exact H]. simpl. intros t Ht.
  destruct (id t =? e)%string; [|exact Ht].
  apply tidy_retexted; [now apply trimmedNonEmpty_trim|exact Ht].
Qed.

(** Every handler keeps the tasks tidy. *)
Lemma tidy_handle e st st' :
  Forall tidy (todos st) -> handle e st = Some st' -> Forall tidy (todos st').
Proof.
  intros H He. destruct e; simpl in He;
    try (injection He as <-; simpl; try exact H).
  - now apply tidy_addTodo.
  - apply Forall_map. eapply Forall_impl; [|exact H]. simpl. intros t Ht.
    destruct (id t =? id0)%string; [now apply tidy_flipped|exact Ht].
  - now apply Forall_filter_keeps.
  - now apply Forall_filter_keeps.
  - now apply tidy_saveEdit.
  - apply handle_Reload in He. destruct He as (l' & -> & HF). simpl.
    clear -H HF. induction HF as [|t t' l l' (Ei & Et & _) _ IH].
    + constructor.
    + inversion H as [|? ? [Ht Hi] H']; subst. constructor; [|now apply IH].
      unfold tidy. rewrite Ei, Et. now split.
Qed.

Lemma tidy_run evs st :
  run evs initial = Some st -> Forall tidy (todos st).
Proof.
  apply (run_invariant (fun st => Forall tidy (todos st))).
  - intros e st0 st1. apply tidy_handle.
  - constructor.
Qed.

(* ================================================================== *)
(** * Editing a task *)

(** Editing a task whose id is not the empty string: for such a task
    of the list, [edit] with a new text that trims to nothing leaves
    the list as it is, and [edit] with any other new text gives the
    trimmed new text to the tasks of that id, leaving the other tasks
    alone. The text a create or an edit stores is not empty and has
    nothing left to trim, so the texts of a list that were such before
    [add] or [edit] are such after it, and in every state a run from
    the empty list reaches every task has such a text and a non-empty
    id. *)
Theorem edit_text :
  (forall (st : State) (todo : Todo) (newText : string),
      In todo (todos st) -> id todo <> "" ->
      (trim newText = "" -> todos (edit todo newText st) = todos st)
      /\ (trim newText <> "" ->
          trimmedNonEmpty (trim newText)
          /\ In (retexted (trim newText) todo) (todos (edit todo newText st))
          /\ forall n t, nth_error (todos st) n = Some t ->
               nth_error (todos (edit todo newText st)) n
               = Some (if (id t =? id todo)%string
                       then retexted (trim newText) t else t)))
  /\ (forall (st : State),
         Forall (fun t => trimmedNonEmpty (text t)) (todos st) ->
         (forall todo newText,
             Forall (fun t => trimmedNonEmpty (text t))
                    (todos (edit todo newText st)))
         /\ (forall v now now',
             Forall (fun t => trimmedNonEmpty (text t))
                    (todos (add v now now' st))))
  /\ (forall evs st, run evs initial = Some st ->
         Forall (fun t => trimmedNonEmpty (text t) /\ id t <> "") (todos st)).
Proof.
  split; [|split].
  - intros st todo newText Hin Hid. rewrite edit_todos.
    apply truthy_spec in Hid. rewrite Hid. simpl. split.
    + intros E. rewrite E. reflexivity.
    + intros E. pose proof E as E'. apply truthy_spec in E'. rewrite E'.
      split; [now apply trimmedNonEmpty_trim|split].
      * apply in_map_iff. exists todo. now rewrite String.eqb_refl.
      * intros n t Hn. now rewrite nth_error_map, Hn.
  - intros st H. split.
    + intros todo newText. rewrite edit_todos.
      destruct (truthy (id todo)); simpl; [|exact H].
      destruct (truthy (trim newText)) eqn:Et; [|exact H].
      apply truthy_spec in Et.
      apply Forall_map. eapply Forall_impl; [|exact H]. simpl. intros t Ht.
      destruct (id t =? id todo)%string; [|exact Ht].
      now apply trimmedNonEmpty_trim.
    + intros v now now'.
      destruct (String.eqb_spec (trim v) "") as [E|E].
      * now rewrite add_blank.
      * rewrite add_nonblank by exact E. simpl. constructor; [|exact H].
        now apply trimmedNonEmpty_trim.
  - intros evs st Hrun. exact (tidy_run evs st Hrun).
Qed.

Lemma edit_text_witness :
  let b := mkTodo "5" "Buy milk" false (TimeValue 6) in
  let st := mkState [mkTodo "7" "Walk dog" false (TimeValue 8); b] "" All None "" in
  todos (edit b "" st) = todos st
  /\ In (mkTodo "5" "new" false (TimeValue 6)) (todos (edit b "  new  " st))
  /\ Forall (fun t => trimmedNonEmpty (text t) /\ id t <> "")
            [mkTodo "5" "Buy milk" false (TimeValue 6)].
Proof.
  intros b st. destruct edit_text as (He & _ & Hrun).
  assert (Hin : In b (todos st)) by (simpl; auto).
  assert (Hid : id b <> "") by discriminate.
  split; [|split].
  - apply (proj1 (He st b "" Hin Hid)). reflexivity.
  - destruct (proj2 (He st b "  new  " Hin Hid)) as (_ & H & _);
      [discriminate|exact H].
  - apply (Hrun [Input "Buy milk"; AddTodo 5 6]
                 (mkState [mkTodo "5" "Buy milk" false (TimeValue 6)]
                          "" All None "")).
    reflexivity.
Defined.

(** In every state reached from the empty list, [edit] on a task of
    the list leaves the list as it is when the new text trims to
    nothing, and otherwise gives the trimmed text to the tasks of that
    id and leaves the other tasks alone. *)
Lemma edit_text_reached evs st todo newText :
  run evs initial = Some st -> In todo (todos st) ->
  (trim newText = "" -> todos (edit todo newText st) = todos st)
  /\ (trim newText <> "" ->
      In (retexted (trim newText) todo) (todos (edit todo newText st))
      /\ forall n t, nth_error (todos st) n = Some t ->
           nth_error (todos (edit todo newText st)) n
           = Some (if (id t =? id todo)%string
                   then retexted (trim newText) t else t)).
Proof.
  intros Hrun Hin.
  assert (Hid : id todo <> "").
  { pose proof (tidy_run evs st Hrun) as H.
    rewrite Forall_forall in H. exact (proj2 (H todo Hin)). }
  destruct (proj1 edit_text st todo newText Hin Hid) as [Hb Hn].
  split; [exact Hb|]. intros E. destruct (Hn E) as (_ & H1 & H2). now split.
Qed.

(** C5 fails at a task whose id is the empty string, as a stored list
    may hold one. [startEditing] opens the editor on the row of the
    task, the row test being [editingId === todo.id]; [saveEdit],
    whose guard takes the empty string in [editingId] for no edit
    under way, drops the new text although it trims to something, and
    the editor stays open: [edit] with ["  new  "] leaves the text
    ["old"] where C5 has it become ["new"]. *)
Theorem edit_dropped_for_empty_id :
  let a := mkTodo "" "old" false (TimeValue 0) in
  let st := setTodos [a] initial in
  mount (Some (persist [a])) = Some (st, [])
  /\ In a (todos st)
  /\ listing (startEditing a st) = Rows [EditRow a "old"]
  /\ trim "  new  " = "new"
  /\ edit a "  new  " st = setEditText "  new  " (startEditing a st)
  /\ todos (edit a "  new  " st) = [a]
  /\ ~ In (retexted "new" a) (todos (edit a "  new  " st)).
Proof.
  intros a st.
  split; [reflexivity|]. split; [now left|].
  split; [reflexivity|]. split; [reflexivity|].
  split; [reflexivity|]. split; [reflexivity|].
  intros H. simpl in H. destruct H as [E|[]]. discriminate.
Qed.

(* ================================================================== *)
(** * The queries *)

Lemma Number_toString_eqb a b :
  a <> b -> (Number_toString a =? Number_toString b)%string = false.
Proof.
  intros H. apply String.eqb_neq. intros E. now apply Number_toString_inj in E.
Qed.

(** C8 (as the code has it): choosing a filter changes no task;
    [filteredTodos] is the whole list under [All], exactly the tasks
    that are not completed under [Active], exactly the completed tasks
    under [Completed], in list order each; [itemsLeft] counts the tasks
    that are not completed. From the empty list, adding "Buy milk" and
    then "Walk dog" gives the texts "Walk dog", "Buy milk"; when the
    two calls read different values off [Date.now()], toggling the id
    of "Buy milk" leaves "Walk dog" as the only active task, "Buy milk"
    as the only completed one, and one item left. *)
Theorem filter_queries :
  (forall st : State,
      (forall f, todos (setFilter f st) = todos st)
      /\ filteredTodos (setFilter All st) = todos st
      /\ Selects (fun t => negb (completed t))
                 (filteredTodos (setFilter Active st)) (todos st)
      /\ Selects completed (filteredTodos (setFilter Completed st)) (todos st)
      /\ itemsLeft st = List.length (filteredTodos (setFilter Active st))
      /\ itemsLeft (setTodos [] st) = 0%nat
      /\ (forall t l,
             itemsLeft (setTodos (t :: l) st)
             = ((if completed t then 0 else 1) + itemsLeft (setTodos l st))%nat))
  /\ (forall now1 now1' now2 now2' : Z,
         let st2 := add "Walk dog" now2 now2' (add "Buy milk" now1 now1' initial) in
         map text (todos st2) = ["Walk dog"; "Buy milk"]
         /\ (now1 <> now2 ->
             forall buyMilk, In buyMilk (todos st2) -> text buyMilk = "Buy milk" ->
             let st3 := toggleTodo (id buyMilk) st2 in
             map text (filteredTodos (setFilter Active st3)) = ["Walk dog"]
             /\ map text (filteredTodos (setFilter Completed st3)) = ["Buy milk"]
             /\ itemsLeft st3 = 1%nat)).
Proof.
  split.
  - intros st. split; [reflexivity|]. split.
    { unfold filteredTodos. simpl. apply filter_all_true. reflexivity. }
    split; [apply Selects_filter|]. split; [apply Selects_filter|].
    split; [reflexivity|]. split; [reflexivity|].
    intros t l. unfold itemsLeft. simpl. now destruct (completed t).
  - intros now1 now1' now2 now2' st2.
    assert (E : st2 = mkState
                        [mkTodo (Number_toString now2) "Walk dog" false (TimeValue now2');
                         mkTodo (Number_toString now1) "Buy milk" false (TimeValue now1')]
                        "" All None "") by reflexivity.
    rewrite E. split; [reflexivity|].
    intros Hne buyMilk [<-|[<-|[]]]; [discriminate|]. intros _. simpl.
    unfold filteredTodos, itemsLeft, toggleTodo. simpl.
    rewrite String.eqb_refl.
    rewrite (Number_toString_eqb now2 now1) by congruence.
    simpl. repeat split.
Qed.

Lemma filter_queries_witness :
  let st2 := add "Walk dog" 7 8 (add "Buy milk" 5 6 initial) in
  let st3 := toggleTodo "5" st2 in
  map text (filteredTodos (setFilter Active st3)) = ["Walk dog"]
  /\ map text (filteredTodos (setFilter Completed st3)) = ["Buy milk"]
  /\ itemsLeft st3 = 1%nat.
Proof.
  intros st2 st3.
  destruct filter_queries as [_ H].
  destruct (H 5 6 7 8) as [_ H'].
  apply (H' ltac:(discriminate) (mkTodo "5" "Buy milk" false (TimeValue 6))).
  - simpl. auto.
  - reflexivity.
Defined.

(** C8 as stated fails: when both calls of [addTodo] read the same
    value off [Date.now()] the two tasks share their id, the toggle
    completes both, and no task is active. *)
Lemma scenario_same_reading :
  ~ (forall now1 now1' now2 now2' : Z,
       let st2 := add "Walk dog" now2 now2' (add "Buy milk" now1 now1' initial) in
       forall buyMilk, In buyMilk (todos st2) -> text buyMilk = "Buy milk" ->
       let st3 := toggleTodo (id buyMilk) st2 in
       map text (filteredTodos (setFilter Active st3)) = ["Walk dog"]
       /\ map text (filteredTodos (setFilter Completed st3)) = ["Buy milk"]
       /\ itemsLeft st3 = 1%nat).
Proof.
  intros H.
  specialize (H 5 5 5 5 (mkTodo "5" "Buy milk" false (TimeValue 5))).
  destruct H as [H _]; [simpl; auto|reflexivity|discriminate H].
Qed.

(* ================================================================== *)
(** * The ids along a run *)

Lemma Subsequence_refl {A} (l : list A) : Subsequence l l.
Proof. induction l; now constructor. Qed.

Lemma Subsequence_In {A} (l1 l2 : list A) x :
  Subsequence l1 l2 -> In x l1 -> In x l2.
Proof.
  induction 1 as [|y l1 l2 _ IH|y l1 l2 _ IH]; simpl; intros Hx; auto.
  destruct Hx; auto.
Qed.

Lemma Subsequence_NoDup {A} (l1 l2 : list A) :
  Subsequence l1 l2 -> NoDup l2 -> NoDup l1.
Proof.
  induction 1 as [|y l1 l2 Hs IH|y l1 l2 Hs IH]; intros Hn.
  - constructor.
  - inversion Hn; subst. auto.
  - inversion Hn as [|? ? Hy Hn']; subst. constructor; [|auto].
    intros Hin. apply Hy. eapply Subsequence_In; eassumption.
Qed.

Lemma Subsequence_map {A B} (f : A -> B) l1 l2 :
  Subsequence l1 l2 -> Subsequence (map f l1) (map f l2).
Proof. induction 1; simpl; now constructor. Qed.

Lemma map_id_cond (g : Todo -> Todo) (c : Todo -> bool) l :
  (forall t, id (g t) = id t) ->
  map id (map (fun t => if c t then g t else t) l) = map id l.
Proof.
  intros Hg. rewrite map_map. apply map_ext. intros t.
  destruct (c t); [apply Hg|reflexivity].
Qed.

Lemma ids_saveEdit st : ids (saveEdit st) = ids st.
Proof.
  unfold saveEdit, ids. destruct (editingId st) as [e|]; [|reflexivity].
  destruct (truthy e && truthy (trim (editText st)))%bool; [|reflexivity].
  simpl. now apply map_id_cond.
Qed.

Lemma ids_Reload st st' : handle Reload st = Some st' -> ids st' = ids st.
Proof.
  intros H. apply handle_Reload in H. destruct H as (l' & -> & HF).
  unfold ids. simpl. induction HF as [|t t' l l' (Ei & _) _ IH]; simpl;
    [reflexivity|]. now rewrite Ei, IH.
Qed.

(** One event either assigns the id of a new first task, using one
    reading of [Date.now()], or leaves ids of the list in place. *)
Lemma handle_ids e st st' evs :
  handle e st = Some st' ->
  (exists now now', e = AddTodo now now'
      /\ ids st' = Number_toString now :: ids st
      /\ readings (e :: evs) st = now :: readings evs st')
  \/ (Subsequence (ids st') (ids st)
      /\ readings (e :: evs) st = readings evs st').
Proof.
  intros H. simpl readings. rewrite H.
  destruct e; simpl in H; try injection H as <-;
    try (right; split; [apply Subsequence_refl|reflexivity]).
  - unfold addTodo.
    destruct (String.eqb_spec (trim (inputValue st)) "") as [E|E].
    + right. split; [apply Subsequence_refl|reflexivity].
    + left. exists now, now'. repeat split.
  - right. split; [|reflexivity]. unfold ids, toggleTodo. simpl.
    rewrite map_id_cond by reflexivity. apply Subsequence_refl.
  - right. split; [|reflexivity]. apply Subsequence_map, Subsequence_filter.
  - right. split; [|reflexivity]. apply Subsequence_map, Subsequence_filter.
  - right. split; [|reflexivity]. rewrite ids_saveEdit. apply Subsequence_refl.
  - right. split; [|reflexivity].
    rewrite (ids_Reload st st') by exact H. apply Subsequence_refl.
Qed.

Lemma NoDup_map_Number_toString l :
  NoDup l -> NoDup (map Number_toString l).
Proof.
  induction 1 as [|a l Ha _ IH]; simpl; constructor; [|exact IH].
  intros Hin. apply in_map_iff in Hin. destruct Hin as (b & E & Hb).
  apply Number_toString_inj in E. now subst.
Qed.

(** From a list of distinct ids that none of the coming readings
    prints, a run with pairwise different readings reaches a list of
    distinct ids, each an old one or one assigned on the way. *)
Lemma run_ids evs : forall st st',
  run evs st = Some st' ->
  NoDup (ids st) ->
  (forall r, In r (readings evs st) -> ~ In (Number_toString r) (ids st)) ->
  NoDup (readings evs st) ->
  NoDup (ids st') /\ incl (ids st') (ids st ++ issued evs st).
Proof.
  induction evs as [|e evs IH]; simpl run; intros st st' Hrun Hnd Hold Hs.
  - injection Hrun as <-. split; [exact Hnd|]. intros i Hi. apply in_or_app. now left.
  - destruct (handle e st) as [st1|] eqn:He; [|discriminate].
    unfold issued in *.
    destruct (handle_ids e st st1 evs He) as [(now & now' & -> & Ei & Er)|[Hsub Er]];
      rewrite Er in *.
    + inversion Hs as [|? ? Hnew Hs']; subst.
      destruct (IH st1 st' Hrun) as [Hn Hi].
      * rewrite Ei. constructor; [|exact Hnd]. apply Hold. now left.
      * intros r Hr. rewrite Ei. intros [E|Hin].
        -- apply Number_toString_inj in E. now subst.
        -- apply (Hold r); [now right|exact Hin].
      * exact Hs'.
      * split; [exact Hn|]. intros i Hin. specialize (Hi i Hin).
        rewrite Ei in Hi. simpl in Hi. apply in_or_app.
        destruct Hi as [<-|Hi]; [right; now left|].
        apply in_app_or in Hi. destruct Hi; [now left|right; now right].
    + destruct (IH st1 st' Hrun) as [Hn Hi].
      * eapply Subsequence_NoDup; eassumption.
      * intros r Hr Hin. apply (Hold r Hr). eapply Subsequence_In; eassumption.
      * exact Hs.
      * split; [exact Hn|]. intros i Hin. specialize (Hi i Hin).
        apply in_or_app. apply in_app_or in Hi. destruct Hi as [Hi|Hi]; [left|now right].
        eapply Subsequence_In; eassumption.
Qed.

Lemma readings_app evs1 evs2 st st1 :
  run evs1 st = Some st1 ->
  readings (evs1 ++ evs2) st = (readings evs1 st ++ readings evs2 st1)%list.
Proof.
  revert st. induction evs1 as [|e evs1 IH]; simpl; intros st H.
  - now injection H as <-.
  - destruct (handle e st) as [st0|]; [|discriminate].
    destruct e; try (now apply IH).
    destruct (trim (inputValue st) =? "")%string; simpl; [|f_equal]; now apply IH.
Qed.

(** C1 (as the code has it): an id is the decimal string of the
    reading of [Date.now()] at the [addTodo] that created the task.
    Along a run from the empty list in which the creating [addTodo]
    calls read pairwise different values, the ids in the list are
    pairwise distinct, no id is assigned twice, every id in the list
    is one that was assigned, and the id a further [addTodo] assigns
    at yet another reading is neither in the list nor was it assigned
    before. *)
Theorem ids_distinct_when_readings_differ :
  forall (evs : list Event) (st : State),
    run evs initial = Some st ->
    NoDup (readings evs initial) ->
    NoDup (ids st)
    /\ NoDup (issued evs initial)
    /\ incl (ids st) (issued evs initial)
    /\ (forall now now',
          trim (inputValue st) <> "" ->
          NoDup (readings (evs ++ [AddTodo now now']) initial) ->
          ids (addTodo now now' st) = Number_toString now :: ids st
          /\ ~ In (Number_toString now) (ids st)
          /\ ~ In (Number_toString now) (issued evs initial)).
Proof.
  intros evs st Hrun Hs.
  destruct (run_ids evs initial st Hrun) as [Hn Hi];
    [constructor|intros r _ []|exact Hs|].
  assert (Hiss : NoDup (issued evs initial))
    by (apply NoDup_map_Number_toString, Hs).
  split; [exact Hn|]. split; [exact Hiss|]. split; [exact Hi|].
  intros now now' Hv Hs'.
  rewrite (readings_app evs [AddTodo now now'] initial st Hrun) in Hs'.
  simpl in Hs'. apply String.eqb_neq in Hv. rewrite Hv in Hs'.
  assert (Hnew : ~ In (Number_toString now) (issued evs initial)).
  { unfold issued. intros Hin. apply in_map_iff in Hin.
    destruct Hin as (r & E & Hr). apply Number_toString_inj in E. subst r.
    apply NoDup_remove_2 in Hs'. apply Hs'. now rewrite app_nil_r. }
  split; [|split; [|exact Hnew]].
  - unfold addTodo. rewrite Hv. reflexivity.
  - intros Hin. apply Hnew. now apply Hi.
Qed.

Lemma ids_distinct_when_readings_differ_witness :
  let evs := [Input "Buy milk"; AddTodo 7 8; Input "Walk dog"; AddTodo 5 6;
              ToggleTodo "5"; Reload; Input "Sleep"] in
  exists st, run evs initial = Some st
    /\ NoDup (ids st)
    /\ ids (addTodo 9 9 st) = "9" :: ids st
    /\ ~ In "9" (ids st).
Proof.
  intros evs.
  pose (st := mkState [mkTodo "5" "Walk dog" true (TimeValue 6);
                       mkTodo "7" "Buy milk" false (TimeValue 8)]
                      "Sleep" All None "").
  exists st.
  assert (Hrun : run evs initial = Some st) by (vm_compute; reflexivity).
  assert (Hs : NoDup (readings evs initial)).
  { vm_compute. repeat constructor; simpl; intuition discriminate. }
  destruct (ids_distinct_when_readings_differ evs st Hrun Hs)
    as (Hn & _ & _ & Hadd).
  split; [exact Hrun|]. split; [exact Hn|].
  destruct (Hadd 9 9) as (H1 & H2 & _).
  - discriminate.
  - vm_compute. repeat constructor; simpl; intuition discriminate.
  - split; [exact H1|exact H2].
Defined.

(** C1 as stated fails: two tasks created at the same reading of
    [Date.now()] carry the same id. *)
Lemma ids_repeat_at_same_reading :
  ~ (forall (evs : list Event) (st : State),
       run evs initial = Some st -> NoDup (ids st)).
Proof.
  intros H.
  specialize (H [Input "a"; AddTodo 5 5; Input "b"; AddTodo 5 5] _ eq_refl).
  inversion H as [|? ? Hin _]; subst. apply Hin. now left.
Qed.

(* ================================================================== *)
(** * The date-time format *)

Lemma append_assoc (a b c : string) : ((a ++ b) ++ c = a ++ (b ++ c))%string.
Proof. induction a as [|x a IH]; simpl; [reflexivity|now rewrite IH]. Qed.

Lemma digit_cases n : 
  let r := n mod 10 in
  r = 0 \/ r = 1 \/ r = 2 \/ r = 3 \/ r = 4 \/ r = 5 \/ r = 6 \/ r = 7 \/ r = 8 \/ r = 9.
Proof. intros r. pose proof (Z.mod_pos_bound n 10 ltac:(lia)). subst r. lia. Qed.

Lemma digitValue_digitChar n : digitValue (digitChar n) = Some (n mod 10).
Proof.
  unfold digitChar.
  destruct (digit_cases n) as [E|[E|[E|[E|[E|[E|[E|[E|[E|E]]]]]]]]];
    rewrite E; reflexivity.
Qed.

Lemma digitChar_not_sign n :
  Ascii.eqb (digitChar n) "+" = false /\ Ascii.eqb (digitChar n) "-" = false.
Proof.
  unfold digitChar.
  destruct (digit_cases n) as [E|[E|[E|[E|[E|[E|[E|[E|[E|E]]]]]]]]];
    rewrite E; split; reflexivity.
Qed.

Lemma takeDigits_S k : forall acc s,
  takeDigits (S k) acc s
  = match takeDigits k acc s with
    | Some (v, String c r) =>
        match digitValue c with
        | Some d => Some (10 * v + d, r)
        | None => None
        end
    | _ => None
    end.
Proof.
  induction k as [|k IH]; intros acc s.
  - simpl. destruct s as [|c r]; [reflexivity|]. now destruct (digitValue c).
  - change (takeDigits (S (S k)) acc s)
      with (match s with
            | EmptyString => None
            | String c s' =>
                match digitValue c with
                | Some v => takeDigits (S k) (10 * acc + v) s'
                | None => None
                end
            end).
    destruct s as [|c s']; [reflexivity|]. simpl takeDigits at 2.
    destruct (digitValue c) as [v|]; [|reflexivity]. apply IH.
Qed.

Lemma takeDigits_digits k : forall n acc rest,
  takeDigits k acc (digits k n ++ rest)
  = Some (acc * 10 ^ Z.of_nat k + n mod 10 ^ Z.of_nat k, rest).
Proof.
  induction k as [|k IH]; intros n acc rest.
  - simpl. rewrite Z.mod_1_r. f_equal. f_equal. lia.
  - rewrite takeDigits_S. simpl digits. rewrite append_assoc. simpl append at 2.
    rewrite IH. rewrite digitValue_digitChar. f_equal. f_equal.
    rewrite Nat2Z.inj_succ, Z.pow_succ_r by lia.
    rewrite (Z.rem_mul_r n 10 (10 ^ Z.of_nat k)) by lia. lia.
Qed.

Lemma takeDigits_exact k n rest :
  0 <= n < 10 ^ Z.of_nat k ->
  takeDigits k 0 (digits k n ++ rest) = Some (n, rest).
Proof.
  intros H. rewrite takeDigits_digits. rewrite Z.mod_small by exact H.
  reflexivity.
Qed.

Lemma digits_S_head k n :
  digits (S k) n = (digits k (n / 10) ++ String (digitChar n) EmptyString)%string.
Proof. reflexivity. Qed.

(** The first character of a run of digits is a digit. *)
Lemma digits_head k n rest :
  exists a r, (digits (S k) n ++ rest)%string = String (digitChar a) r.
Proof.
  revert n rest. induction k as [|k IH]; intros n rest.
  - exists n, rest. reflexivity.
  - rewrite digits_S_head, append_assoc.
    destruct (IH (n / 10) (String (digitChar n) EmptyString ++ rest)%string)
      as (a & r & E).
    exists a, r. exact E.
Qed.

Lemma takeYear_yearString y rest :
  -999999 <= y <= 999999 ->
  takeYear (yearString y ++ rest) = Some (y, rest).
Proof.
  intros Hy. unfold yearString.
  destruct ((0 <=? y) && (y <=? 9999)) eqn:E.
  - apply andb_true_iff in E. destruct E as [E1 E2].
    apply Z.leb_le in E1, E2.
    destruct (digits_head 3 y rest) as (a & r & Ed).
    unfold takeYear. rewrite Ed.
    destruct (digitChar_not_sign a) as [-> ->].
    rewrite <- Ed. apply takeDigits_exact. simpl. lia.
  - assert (Hout : y < 0 \/ 9999 < y).
    { apply andb_false_iff in E. destruct E as [E|E].
      - apply Z.leb_gt in E. lia.
      - apply Z.leb_gt in E. lia. }
    destruct (y <? 0) eqn:Hneg.
    + apply Z.ltb_lt in Hneg.
      change (("-" ++ digits 6 (Z.abs y)) ++ rest)%string
        with (String "-" (digits 6 (Z.abs y) ++ rest)).
      unfold takeYear.
      change (Ascii.eqb "-" "+") with false. change (Ascii.eqb "-" "-") with true.
      cbv iota. rewrite takeDigits_exact by (simpl; lia).
      destruct (Z.abs y =? 0) eqn:E0; [apply Z.eqb_eq in E0; lia|].
      f_equal. f_equal. lia.
    + apply Z.ltb_ge in Hneg.
      change (("+" ++ digits 6 (Z.abs y)) ++ rest)%string
        with (String "+" (digits 6 (Z.abs y) ++ rest)).
      unfold takeYear.
      change (Ascii.eqb "+" "+") with true. cbv iota.
      rewrite takeDigits_exact by (simpl; lia).
      f_equal. f_equal. lia.
Qed.

Lemma expect_here c rest : expect c (String c EmptyString ++ rest) = Some rest.
Proof. simpl. now rewrite Ascii.eqb_refl. Qed.

Lemma year_of_era_bounds doe :
  0 <= doe < 146097 ->
  let yoe := (doe - doe / 1460 + doe / 36524 - doe / 146096) / 365 in
  0 <= yoe <= 399 /\ 0 <= doe - (365 * yoe + yoe / 4 - yoe / 100) <= 365.
Proof.
  intros H yoe. subst yoe. Z.div_mod_to_equations. lia.
Qed.

Lemma month_day_bounds doy :
  0 <= doy <= 365 ->
  let mp := (5 * doy + 2) / 153 in
  0 <= mp <= 11 /\ 1 <= doy - (153 * mp + 2) / 5 + 1 <= 31.
Proof.
  intros H mp. subst mp. Z.div_mod_to_equations. lia.
Qed.

(** Every day number comes back from its civil date, whose month and
    day of month are legal. *)
Lemma civil_roundtrip z :
  let '(y, m, d) := civil_from_days z in
  days_from_civil y m d = z
  /\ 1 <= m <= 12 /\ 1 <= d <= 31
  /\ 400 * ((z + 719468) / 146097) <= y <= 400 * ((z + 719468) / 146097) + 400.
Proof.
  unfold civil_from_days.
  set (era := (z + 719468) / 146097).
  set (doe := (z + 719468) mod 146097).
  assert (Hz : z = era * 146097 + doe - 719468).
  { subst era doe. pose proof (Z.div_mod (z + 719468) 146097 ltac:(lia)). lia. }
  assert (Hdoe : 0 <= doe < 146097) by (apply Z.mod_pos_bound; lia).
  clearbody era doe.
  pose proof (year_of_era_bounds doe Hdoe) as Hy. cbv zeta in Hy.
  set (yoe := (doe - doe / 1460 + doe / 36524 - doe / 146096) / 365) in *.
  destruct Hy as [Hyoe Hdoy].
  set (doy := doe - (365 * yoe + yoe / 4 - yoe / 100)) in *.
  pose proof (month_day_bounds doy Hdoy) as Hm. cbv zeta in Hm.
  set (mp := (5 * doy + 2) / 153) in *.
  destruct Hm as [Hmp Hd].
  set (d := doy - (153 * mp + 2) / 5 + 1) in *.
  cbv zeta.
  assert (Hyear : forall y0 m,
             y0 = yoe + era * 400 ->
             (if 2 <? m then m - 3 else m + 9) = mp ->
             (if m <=? 2 then y0 + 1 else y0) - (if m <=? 2 then 1 else 0)
             = yoe + era * 400 ->
             days_from_civil (if m <=? 2 then y0 + 1 else y0) m d = z).
  { intros y0 m Ey Emp _. unfold days_from_civil. rewrite Emp.
    replace (if m <=? 2 then (if m <=? 2 then y0 + 1 else y0) - 1
             else if m <=? 2 then y0 + 1 else y0)
      with (yoe + era * 400) by (destruct (m <=? 2); lia).
    rewrite Z.div_add, Z.mod_add by lia.
    rewrite Z.div_small, Z.mod_small by lia.
    cbv zeta. subst d doy. lia. }
  destruct (Z.ltb_spec mp 10) as [Hlt|Hge].
  - destruct (Z.leb_spec (mp + 3) 2) as [|Hm3]; [lia|].
    split; [|lia].
    pose proof (Hyear (yoe + era * 400) (mp + 3) eq_refl) as H.
    destruct (Z.ltb_spec 2 (mp + 3)); [|lia].
    destruct (Z.leb_spec (mp + 3) 2); [lia|].
    apply H; lia.
  - destruct (Z.leb_spec (mp - 9) 2) as [Hm3|]; [|lia].
    split; [|lia].
    pose proof (Hyear (yoe + era * 400) (mp - 9) eq_refl) as H.
    destruct (Z.ltb_spec 2 (mp - 9)); [lia|].
    destruct (Z.leb_spec (mp - 9) 2); [|lia].
    apply H; lia.
Qed.

Lemma inTimeRange_spec t :
  inTimeRange t = true <-> - maxTimeValue <= t <= maxTimeValue.
Proof.
  unfold inTimeRange. rewrite andb_true_iff, !Z.leb_le. reflexivity.
Qed.

(** A string made of in-range fields in the date-time format reads as
    those fields. *)
Lemma parse_fields y m d h mi sec ms :
  -999999 <= y <= 999999 ->
  0 <= m < 100 -> 0 <= d < 100 -> 0 <= h < 100 -> 0 <= mi < 100 ->
  0 <= sec < 100 -> 0 <= ms < 1000 ->
  parseDateTimeString
    (yearString y ++ "-" ++ digits 2 m ++ "-" ++ digits 2 d ++ "T"
     ++ digits 2 h ++ ":" ++ digits 2 mi ++ ":" ++ digits 2 sec ++ "."
     ++ digits 3 ms ++ "Z")
  = let day := days_from_civil y m d in
    let t := day * msPerDay + h * 3600000 + mi * 60000 + sec * 1000 + ms in
    if (let '(y', m', d') := civil_from_days day in
        (y' =? y) && (m' =? m) && (d' =? d))
       && (h <=? 23) && (mi <=? 59) && (sec <=? 59)
       && inTimeRange t
    then Some t else None.
Proof.
  intros Hy Hm Hd Hh Hmi Hsec Hms. unfold parseDateTimeString.
  rewrite takeYear_yearString by exact Hy.
  repeat first
    [ rewrite expect_here
    | rewrite takeDigits_exact by (simpl; lia) ].
  change (expect "Z" "Z") with (Some EmptyString).
  reflexivity.
Qed.

(** What [toISOString] writes, the date-time format reads back. *)
Theorem parse_toISOString t :
  inTimeRange t = true -> parseDateTimeString (toISOString t) = Some t.
Proof.
  intros Ht. pose proof Ht as Hr. apply inTimeRange_spec in Hr.
  unfold maxTimeValue in Hr.
  unfold toISOString.
  pose proof (civil_roundtrip (Day t)) as Hc.
  destruct (civil_from_days (Day t)) as [[y m] d] eqn:Ec.
  destruct Hc as (Hday & Hm & Hd & Hy).
  assert (HD : -100000000 <= Day t <= 100000000).
  { unfold Day, msPerDay. split.
    - apply Z.div_le_lower_bound; lia.
    - apply Z.div_le_upper_bound; lia. }
  assert (Hk : -700 <= (Day t + 719468) / 146097 <= 700).
  { split.
    - apply Z.div_le_lower_bound; lia.
    - apply Z.div_le_upper_bound; lia. }
  set (tod := TimeWithinDay t).
  assert (Htod : 0 <= tod < 86400000)
    by (apply Z.mod_pos_bound; reflexivity).
  assert (Hh : 0 <= tod / 3600000 <= 23).
  { split; [apply Z.div_pos; lia|].
    enough (tod / 3600000 < 24) by lia. apply Z.div_lt_upper_bound; lia. }
  assert (Hmi : 0 <= tod / 60000 mod 60 < 60) by (apply Z.mod_pos_bound; lia).
  assert (Hs : 0 <= tod / 1000 mod 60 < 60) by (apply Z.mod_pos_bound; lia).
  assert (Hms : 0 <= tod mod 1000 < 1000) by (apply Z.mod_pos_bound; lia).
  rewrite parse_fields by lia.
  cbv zeta. rewrite Hday, Ec, !Z.eqb_refl.
  assert (Et : Day t * msPerDay + tod / 3600000 * 3600000
               + tod / 60000 mod 60 * 60000 + tod / 1000 mod 60 * 1000
               + tod mod 1000 = t).
  { assert (E1 : t = Day t * msPerDay + tod).
    { unfold Day, tod, TimeWithinDay.
      pose proof (Z.div_mod t msPerDay ltac:(discriminate)). lia. }
    assert (E2 : tod / 3600000 * 3600000 + tod / 60000 mod 60 * 60000
                 + tod / 1000 mod 60 * 1000 + tod mod 1000 = tod).
    { clear -Htod. Z.div_mod_to_equations. lia. }
    lia. }
  rewrite Et, Ht.
  destruct (Z.leb_spec (tod / 3600000) 23); [|lia].
  destruct (Z.leb_spec (tod / 60000 mod 60) 59); [|lia].
  destruct (Z.leb_spec (tod / 1000 mod 60) 59); [|lia].
  reflexivity.
Qed.

(* ================================================================== *)
(** * Hydration *)

Lemma expect_inv c s s' : expect c s = Some s' -> s = String c s'.
Proof.
  destruct s as [|c' r]; simpl; [discriminate|].
  destruct (Ascii.eqb_spec c c') as [->|]; [|discriminate]. now intros [= ->].
Qed.

(** The complete form is one of the forms, read alike. *)
Lemma complete_form_is_a_form s t :
  parseDateTimeString s = Some t -> parseDateTimeForms s = Some t.
Proof.
  unfold parseDateTimeString, parseDateTimeForms, takeMonthDay, takeTime.
  destruct (takeYear s) as [[y s1]|]; [|discriminate].
  destruct (expect "-" s1) as [s2|]; [|discriminate].
  destruct (takeDigits 2 0 s2) as [[m s3]|]; [|discriminate].
  destruct (expect "-" s3) as [s4|]; [|discriminate].
  destruct (takeDigits 2 0 s4) as [[d s5]|]; [|discriminate].
  destruct (expect "T" s5) as [s6|] eqn:ET; [|discriminate].
  apply expect_inv in ET. subst s5.
  change ((String "T" s6 =? "")%string) with false. cbv iota.
  change (expect "T" (String "T" s6)) with (Some s6). cbv iota.
  destruct (takeDigits 2 0 s6) as [[h s7]|]; [|discriminate].
  destruct (expect ":" s7) as [s8|]; [|discriminate].
  destruct (takeDigits 2 0 s8) as [[mi s9]|]; [|discriminate].
  destruct (expect ":" s9) as [s10|]; [|discriminate].
  destruct (takeDigits 2 0 s10) as [[sec s11]|]; [|discriminate].
  destruct (expect "." s11) as [s12|]; [|discriminate].
  destruct (takeDigits 3 0 s12) as [[ms s13]|]; [|discriminate].
  destruct (expect "Z" s13) as [s14|] eqn:EZ; [|discriminate].
  apply expect_inv in EZ. subst s13.
  cbv zeta.
  destruct (s14 =? "")%string eqn:E14; [|discriminate].
  destruct (let '(y', m', d') := civil_from_days (days_from_civil y m d) in
            (y' =? y) && (m' =? m) && (d' =? d)); [|discriminate].
  destruct (h <=? 23); [|discriminate].
  destruct (mi <=? 59); [|discriminate].
  destruct (sec <=? 59); [|discriminate].
  cbn [andb].
  destruct (inTimeRange _); [|discriminate].
  intros [= <-]. cbn [takeOffset Ascii.eqb Bool.eqb].
  cbv beta iota. rewrite E14. cbn [andb]. f_equal. lia.
Qed.

Lemma Date_parse_toISOString t :
  inTimeRange t = true -> Date_parse (toISOString t) = Some t.
Proof.
  intros Ht. unfold Date_parse.
  now rewrite (complete_form_is_a_form _ _ (parse_toISOString t Ht)), Ht.
Qed.

Lemma reloadedDate_valid d :
  validDate d = true -> reloadedDate d = Some d.
Proof.
  destruct d as [|t]; simpl; [discriminate|]. intros Ht.
  unfold reloadedDate. cbn [Date_toJSON timeValueOf].
  now rewrite Date_parse_toISOString.
Qed.

Lemma reloadedDate_invalid : reloadedDate InvalidDate = Some (TimeValue 0).
Proof. reflexivity. Qed.

(** Tasks with valid dates come back from the store as they went. *)
Lemma loadEffect_persist_dated l :
  Forall dated l -> loadEffect (Some (persist l)) = Hydrated l.
Proof.
  intros H. rewrite loadEffect_persist, allSome_reloaded_same; [reflexivity|].
  eapply Forall_impl; [|exact H]. intros t. apply reloadedDate_valid.
Qed.

(** The callback throws on [null] and on an element whose [createdAt]
    has no primitive; on every other element it returns the element's
    properties with the Date under [createdAt]. *)
Lemma withDate_spoiled todo :
  spoiled todo = true -> withDate todo = Throw TypeError.
Proof.
  destruct todo as [| | | | |props]; try discriminate; [reflexivity|].
  unfold spoiled, withDate, createdAtOf, bind, new_Date.
  destruct (lookup "createdAt" props) as [v|]; [|discriminate].
  now intros ->.
Qed.

Lemma withDate_sound todo :
  spoiled todo = false ->
  exists v, createdAtOf todo = Return v
            /\ withDate todo
               = Return (assign "createdAt" (PDate (timeValueOf v)) (spread todo)).
Proof.
  destruct todo as [| | | | |props]; try discriminate; intros H;
    try (exists None; split; reflexivity).
  unfold spoiled in H. unfold withDate, createdAtOf, bind, new_Date.
  exists (lookup "createdAt" props). split; [reflexivity|].
  destruct (lookup "createdAt" props) as [v|]; [|reflexivity].
  now rewrite H.
Qed.

Lemma mapResult_withDate js :
  (existsb spoiled js = true -> mapResult withDate js = Throw TypeError)
  /\ (existsb spoiled js = false ->
      exists objs, mapResult withDate js = Return objs
                   /\ Forall2 (fun j o => withDate j = Return o) js objs).
Proof.
  induction js as [|j js [IHt IHr]]; simpl.
  - split; [discriminate|]. intros _. exists []. split; [reflexivity|constructor].
  - destruct (spoiled j) eqn:Ej; simpl.
    + split; [|discriminate]. intros _. now rewrite (withDate_spoiled j Ej).
    + destruct (withDate_sound j Ej) as (v & _ & Ew). rewrite Ew. simpl. split.
      * intros H. now rewrite (IHt H).
      * intros H. destruct (IHr H) as (objs & E & HF). rewrite E. simpl.
        eexists. split; [reflexivity|]. constructor; assumption.
Qed.

(** When the [try] block throws, and what. *)
Lemma decode_Throw item e :
  decode item = Throw e <->
  (e = SyntaxError /\ (item = Empty \/ item = Malformed))
  \/ (e = TypeError
      /\ exists j, item = Document j
           /\ ((forall js, j <> JArray js)
               \/ exists js, j = JArray js /\ existsb spoiled js = true)).
Proof.
  split.
  - destruct item as [| |j]; simpl.
    + intros [= <-]. left. split; [reflexivity|now left].
    + intros [= <-]. left. split; [reflexivity|now right].
    + intros H. right.
      destruct j as [| | | |js|];
        try (injection H as <-; split; [reflexivity|];
             eexists; split; [reflexivity|left; intros js; discriminate]).
      change (mapResult withDate js = Throw e) in H.
      destruct (existsb spoiled js) eqn:Es.
      * rewrite (proj1 (mapResult_withDate js) Es) in H. injection H as <-.
        split; [reflexivity|]. eexists; split; [reflexivity|right; eauto].
      * destruct (proj2 (mapResult_withDate js) Es) as (ds & E & _).
        rewrite E in H. discriminate.
  - intros [(-> & [->| ->])|(-> & j & -> & [Hj|(js & -> & Hin)])];
      try reflexivity.
    + destruct j; try reflexivity. now destruct (Hj elems).
    + apply (proj1 (mapResult_withDate js) Hin).
Qed.

Lemma mount_firstEffect saved :
  mount saved
  = match firstEffect saved with
    | NoCall => Some (initial, [])
    | Logs e => Some (initial, [e])
    | SetTodos objs =>
        match allSome (map asTodo objs) with
        | Some l => Some (setTodos l initial, [])
        | None => None
        end
    end.
Proof.
  unfold mount, loadEffect. destruct (firstEffect saved) as [|objs|e];
    try reflexivity.
  now destruct (allSome (map asTodo objs)).
Qed.

(** C7 (as the code has it): whatever is stored, the first effect does
    exactly one of three things, and no exception leaves it. With
    nothing or the empty string stored it calls nothing: the list
    stays empty and nothing is logged. When the [try] block throws
    (the stored text is no JSON, or no array, or an array with an
    element that is [null] or whose [createdAt] has no primitive) the
    list stays empty and the error is logged once. In every other
    case the stored text is an array and [setTodos] receives, for each
    element as it stands, the element's properties with
    [new Date(todo.createdAt)] under [createdAt]: the elements are not
    checked to be tasks. What [persist] stored of a list of validly
    dated tasks is set as that list. *)
Theorem hydration_outcomes :
  (forall saved : option Item,
      ((saved = None \/ saved = Some Empty)
       /\ firstEffect saved = NoCall
       /\ mount saved = Some (initial, []))
      \/ (exists item e,
             saved = Some item
             /\ ((e = SyntaxError /\ item = Malformed)
                 \/ (e = TypeError
                     /\ exists j, item = Document j
                          /\ ((forall js, j <> JArray js)
                              \/ exists js, j = JArray js
                                   /\ existsb spoiled js = true)))
             /\ firstEffect saved = Logs e
             /\ mount saved = Some (initial, [e]))
      \/ (exists js objs,
             saved = Some (Document (JArray js))
             /\ existsb spoiled js = false
             /\ Forall2 (fun j o =>
                           exists v, createdAtOf j = Return v
                             /\ o = assign "createdAt" (PDate (timeValueOf v))
                                           (spread j))
                        js objs
             /\ firstEffect saved = SetTodos objs
             /\ mount saved
                = match allSome (map asTodo objs) with
                  | Some l => Some (setTodos l initial, [])
                  | None => None
                  end))
  /\ (forall l : list Todo,
         Forall dated l ->
         firstEffect (Some (persist l)) = SetTodos (map reloadedObject l)
         /\ map asTodo (map reloadedObject l) = map Some l
         /\ mount (Some (persist l)) = Some (setTodos l initial, [])).
Proof.
  split.
  - intros [item|]; [|left; split; [now left|split; reflexivity]].
    destruct item as [| |j].
    + left. split; [now right|split; reflexivity].
    + right. left. exists Malformed, SyntaxError.
      split; [reflexivity|]. split; [now left|]. split; reflexivity.
    + destruct (decode (Document j)) as [objs|e] eqn:E.
      * right. right.
        destruct j as [| | | |js|]; try discriminate.
        pose proof E as E0.
        change (mapResult withDate js = Return objs) in E.
        destruct (existsb spoiled js) eqn:Es.
        { rewrite (proj1 (mapResult_withDate js) Es) in E. discriminate. }
        destruct (proj2 (mapResult_withDate js) Es) as (objs' & E' & HF).
        assert (objs' = objs) by congruence. subst objs'.
        assert (Hf : firstEffect (Some (Document (JArray js))) = SetTodos objs)
          by (unfold firstEffect; now rewrite E0).
        exists js, objs. split; [reflexivity|]. split; [exact Es|].
        split; [|split; [exact Hf|now rewrite mount_firstEffect, Hf]].
        clear -HF Es. induction HF as [|j o js objs Hj _ IH]; constructor.
        -- simpl in Es. apply orb_false_iff in Es.
           destruct (withDate_sound j (proj1 Es)) as (v & Ev & Ew).
           exists v. split; [exact Ev|congruence].
        -- apply IH. simpl in Es. apply orb_false_iff in Es. exact (proj2 Es).
      * right. left. exists (Document j), e.
        assert (Hf : firstEffect (Some (Document j)) = Logs e)
          by (unfold firstEffect; now rewrite E).
        split; [reflexivity|]. split; [|split; [exact Hf|]].
        -- apply decode_Throw in E.
           destruct E as [(_ & [E|E])|E]; try discriminate. now right.
        -- now rewrite mount_firstEffect, Hf.
  - intros l Hl. split; [apply firstEffect_persist|]. split.
    + rewrite map_map, (map_ext _ _ asTodo_reloadedObject).
      clear -Hl. induction Hl as [|t l Ht _ IH]; simpl; [reflexivity|].
      rewrite IH. unfold reloaded. rewrite (reloadedDate_valid _ Ht).
      now destruct t.
    + unfold mount. now rewrite loadEffect_persist_dated.
Qed.

Lemma hydration_outcomes_witness :
  let l := [mkTodo "7" "Walk dog" false (TimeValue 1700000000123);
            mkTodo "5" "Buy milk" true (TimeValue 6)] in
  firstEffect (Some (persist l)) = SetTodos (map reloadedObject l)
  /\ map asTodo (map reloadedObject l) = map Some l
  /\ mount (Some (persist l)) = Some (setTodos l initial, []).
Proof.
  intros l. apply (proj2 hydration_outcomes). repeat constructor.
Defined.

(** C7 as stated fails: the stored text [[5]] is no stored list of
    tasks, yet the first effect neither logs anything nor leaves the
    list empty: it sets the list to one object whose only property is
    an Invalid Date under [createdAt], which is no task. *)
Lemma stored_number_is_set :
  let saved := Some (Document (JArray [JNumber "5"])) in
  let o := [("createdAt", PDate (Exact InvalidDate))] in
  (forall l, saved <> Some (persist l))
  /\ firstEffect saved = SetTodos [o]
  /\ asTodo o = None
  /\ firstEffect saved <> NoCall
  /\ (forall e, firstEffect saved <> Logs e).
Proof.
  intros saved o. split.
  - intros [|t l]; discriminate.
  - split; [reflexivity|]. split; [reflexivity|]. split; discriminate.
Qed.

(** The first effect on some stored arrays: a record with its
    properties in another order and one property more; dates in
    several forms; a [createdAt] that has no primitive; a string where
    a record should be. *)
Example hydration_examples :
  loadEffect (Some (Document (JArray
    [JObject [("text", JString "a"); ("note", JNull); ("completed", JBool true);
              ("createdAt", JString "2024-01-01"); ("id", JString "1")]])))
  = Hydrated [mkTodo "1" "a" true (TimeValue 1704067200000)]
  /\ timeValueOf (Some (JString "2024-01-01T10:00:00Z"))
     = Exact (TimeValue 1704103200000)
  /\ timeValueOf (Some (JString "2024-01-01T10:00+05:30"))
     = Exact (TimeValue 1704083400000)
  /\ timeValueOf (Some (JNumber "1700000000123"))
     = Exact (TimeValue 1700000000123)
  /\ timeValueOf (Some (JNumber "8640000000000001")) = Exact InvalidDate
  /\ timeValueOf (Some (JString "2024-01-01T10:00:00"))
     = DateOf (JString "2024-01-01T10:00:00")
  /\ timeValueOf (Some (JString "soon")) = DateOf (JString "soon")
  /\ firstEffect (Some (Document (JArray
       [JObject [("id", JString "1");
                 ("createdAt", JObject [("toString", JNumber "1")])]])))
     = Logs TypeError
  /\ firstEffect (Some (Document (JArray [JString "ab"])))
     = SetTodos [[("0", PJson (JString "a")); ("1", PJson (JString "b"));
                  ("createdAt", PDate (Exact InvalidDate))]].
Proof. repeat split. Qed.

(** C2 (as the code has it): a list whose tasks all carry a valid Date
    is loaded from what [persist] stored exactly as it was. Whenever a
    stored list loads as tasks at all, ids, texts and completed flags
    are the stored ones, a valid Date is the stored one to the
    millisecond, and an Invalid Date has become the epoch. *)
Theorem store_load_roundtrip :
  (forall l : list Todo,
      Forall dated l -> loadEffect (Some (persist l)) = Hydrated l)
  /\ (forall l l' : list Todo,
         loadEffect (Some (persist l)) = Hydrated l' ->
         Forall2 (fun t t' =>
                    id t' = id t /\ text t' = text t
                    /\ completed t' = completed t
                    /\ (dated t -> createdAt t' = createdAt t)
                    /\ (createdAt t = InvalidDate -> createdAt t' = TimeValue 0))
                 l l').
Proof.
  split; [exact loadEffect_persist_dated|].
  intros l l' H. rewrite loadEffect_persist in H.
  destruct (allSome (map reloaded l)) as [r|] eqn:E; [|discriminate].
  injection H as <-. apply allSome_reloaded in E.
  eapply Forall2_impl; [|exact E]. simpl.
  intros t t' (Ei & Et & Ec & Ed). repeat split; try assumption.
  - intros Hd. rewrite (reloadedDate_valid _ Hd) in Ed. congruence.
  - intros Hinv. rewrite Hinv, reloadedDate_invalid in Ed. congruence.
Qed.

Lemma store_load_roundtrip_witness :
  let l := [mkTodo "7" "Walk dog" false (TimeValue 1700000000123);
            mkTodo "5" "Buy milk" true (TimeValue (-1))] in
  loadEffect (Some (persist l)) = Hydrated l.
Proof.
  intros l. apply (proj1 store_load_roundtrip). repeat constructor.
Defined.

(** C2 as stated fails: a task whose [createdAt] is an Invalid Date,
    as hydration makes it from a stored task without [createdAt], is
    stored with [createdAt] [null] and loaded with the epoch. *)
Lemma invalid_date_not_restored :
  let l := [mkTodo "1" "a" false InvalidDate] in
  mount (Some (Document (JArray
           [JObject [("id", JString "1"); ("text", JString "a");
                     ("completed", JBool false)]])))
  = Some (setTodos l initial, [])
  /\ loadEffect (Some (persist l)) = Hydrated [mkTodo "1" "a" false (TimeValue 0)]
  /\ loadEffect (Some (persist l)) <> Hydrated l.
Proof.
  intros l. split; [reflexivity|]. split; [reflexivity|]. discriminate.
Qed.

(* ================================================================== *)
(** * Runs go through *)

Lemma dated_handle e st :
  timely e -> Forall dated (todos st) ->
  exists st', handle e st = Some st' /\ Forall dated (todos st').
Proof.
  intros He H. destruct e; simpl;
    try (eexists; split; [reflexivity|]; simpl; try exact H).
  - unfold addTodo. destruct (trim (inputValue st) =? "")%string; [exact H|].
    simpl. constructor; [exact He|exact H].
  - apply Forall_map. eapply Forall_impl; [|exact H]. simpl. intros t Ht.
    now destruct (id t =? id0)%string.
  - now apply Forall_filter_keeps.
  - now apply Forall_filter_keeps.
  - unfold saveEdit. destruct (editingId st) as [e|]; [|exact H].
    destruct (truthy e && truthy (trim (editText st)))%bool; [|exact H].
    simpl. apply Forall_map. eapply Forall_impl; [|exact H]. simpl.
    intros t Ht. now destruct (id t =? e)%string.
  - unfold mount. rewrite (loadEffect_persist_dated _ H).
    eexists; split; [reflexivity|exact H].
Qed.

(** A run whose events are timely never leaves the tasks the model
    follows: every event, a reload included, finds its next state. *)
Lemma run_total evs : forall st,
  Forall timely evs -> Forall dated (todos st) ->
  exists st', run evs st = Some st' /\ Forall dated (todos st').
Proof.
  induction evs as [|e evs IH]; intros st He H; simpl.
  - eauto.
  - inversion He as [|? ? He1 He2]; subst.
    destruct (dated_handle e st He1 H) as (st1 & E & H1). rewrite E.
    now apply IH.
Qed.

(* ================================================================== *)
(** * Reloading *)

Lemma Date_parse_inTimeRange s t :
  Date_parse s = Some t -> inTimeRange t = true.
Proof.
  unfold Date_parse.
  destruct (parseDateTimeForms s) as [t'|]; [|discriminate].
  destruct (inTimeRange t') eqn:Et; [|discriminate]. now intros [= <-].
Qed.

Lemma reloadedDate_dated d d' : reloadedDate d = Some d' -> validDate d' = true.
Proof.
  destruct d as [|t]; unfold reloadedDate; cbn [Date_toJSON timeValueOf].
  - intros [= <-]. reflexivity.
  - destruct (Date_parse (toISOString t)) as [t'|] eqn:E; [|discriminate].
    intros [= <-]. simpl. eapply Date_parse_inTimeRange; eassumption.
Qed.

(** X3. A list that was loaded from the slot is stored and loaded
    again without any change: every date a load produces is a valid
    one. *)
Theorem loaded_list_is_stable :
  forall l l' : list Todo,
    loadEffect (Some (persist l)) = Hydrated l' ->
    Forall dated l' /\ loadEffect (Some (persist l')) = Hydrated l'.
Proof.
  intros l l' H. rewrite loadEffect_persist in H.
  destruct (allSome (map reloaded l)) as [r|] eqn:E; [|discriminate].
  injection H as <-. apply allSome_reloaded in E.
  assert (Hd : Forall dated r).
  { clear -E. induction E as [|t t' l r (_ & _ & _ & Ed) _ IH];
      constructor; [|exact IH].
    unfold dated. eapply reloadedDate_dated; eassumption. }
  split; [exact Hd|now apply loadEffect_persist_dated].
Qed.

Lemma loaded_list_is_stable_witness :
  let l := [mkTodo "1" "a" false InvalidDate;
            mkTodo "2" "b" true (TimeValue 1700000000123)] in
  let l' := [mkTodo "1" "a" false (TimeValue 0);
             mkTodo "2" "b" true (TimeValue 1700000000123)] in
  loadEffect (Some (persist l')) = Hydrated l'.
Proof.
  intros l l'.
  assert (H : loadEffect (Some (persist l)) = Hydrated l')
    by (vm_compute; reflexivity).
  exact (proj2 (loaded_list_is_stable l l' H)).
Defined.

(** X4. Every list the handlers build from the empty list, with
    [new Date()] holding time values, has validly dated tasks only,
    and the text [JSON.stringify] makes of it mounts as that very
    list: nothing is logged, and the input, the filter and the edit
    cells have their initial values. *)
Theorem reached_list_mounts :
  forall (evs : list Event) (st : State),
    Forall timely evs ->
    run evs initial = Some st ->
    Forall dated (todos st)
    /\ mount (Some (persist (todos st))) = Some (setTodos (todos st) initial, []).
Proof.
  intros evs st He Hrun.
  destruct (run_total evs initial He) as (st' & Hrun' & Hd); [constructor|].
  assert (st' = st) by congruence. subst st'.
  split; [exact Hd|].
  unfold mount. now rewrite (loadEffect_persist_dated _ Hd).
Qed.

Lemma reached_list_mounts_witness :
  let evs := [Input "Buy milk"; AddTodo 5 6; SetFilter Active; Input "draft"] in
  let l := [mkTodo "5" "Buy milk" false (TimeValue 6)] in
  mount (Some (persist l)) = Some (mkState l "" All None "", []).
Proof.
  intros evs l.
  assert (Hrun : run evs initial = Some (mkState l "draft" Active None ""))
    by reflexivity.
  apply (reached_list_mounts evs _ (ltac:(repeat constructor)) Hrun).
Defined.

(* ================================================================== *)
(** * Newest first, and what a task keeps *)

Lemma Subsequence_nil_l {A} (l : list A) : Subsequence [] l.
Proof. induction l; now constructor. Qed.

Lemma Subsequence_trans {A} (l1 l2 l3 : list A) :
  Subsequence l1 l2 -> Subsequence l2 l3 -> Subsequence l1 l3.
Proof.
  intros H12 H23. revert l1 H12.
  induction H23 as [|x l2 l3 _ IH|x l2 l3 _ IH]; intros l1 H12.
  - exact H12.
  - apply sub_skip. now apply IH.
  - inversion H12; subst.
    + apply sub_skip. now apply IH.
    + apply sub_keep. now apply IH.
Qed.

Lemma Subsequence_app_head {A} (l l1 l2 : list A) :
  Subsequence l1 l2 -> Subsequence (l ++ l1) (l ++ l2).
Proof. intros H. induction l; simpl; [exact H|now apply sub_keep]. Qed.

Lemma Subsequence_length {A} (l1 l2 : list A) :
  Subsequence l1 l2 -> (List.length l1 <= List.length l2)%nat.
Proof. induction 1; simpl; lia. Qed.

Lemma stamp_cond (g : Todo -> Todo) (c : Todo -> bool) l :
  (forall t, stamp (g t) = stamp t) ->
  map stamp (map (fun t => if c t then g t else t) l) = map stamp l.
Proof.
  intros Hg. rewrite map_map. apply map_ext. intros t.
  destruct (c t); [apply Hg|reflexivity].
Qed.

Lemma stamps_Reload st st' :
  Forall dated (todos st) -> handle Reload st = Some st' ->
  todos st' = todos st.
Proof.
  intros Hd. simpl. unfold mount.
  rewrite (loadEffect_persist_dated _ Hd). now intros [= <-].
Qed.

(** One timely event on validly dated tasks either puts a newly
    stamped task in front or leaves stamps of the list in place. *)
Lemma handle_stamps e st st' evs :
  timely e -> Forall dated (todos st) -> handle e st = Some st' ->
  (exists now now', e = AddTodo now now'
      /\ map stamp (todos st')
         = (Number_toString now, TimeValue now') :: map stamp (todos st)
      /\ stamped (e :: evs) st
         = (Number_toString now, TimeValue now') :: stamped evs st')
  \/ (Subsequence (map stamp (todos st')) (map stamp (todos st))
      /\ stamped (e :: evs) st = stamped evs st').
Proof.
  intros Ht Hd H. simpl stamped. rewrite H.
  destruct e; simpl in H; try injection H as <-;
    try (right; split; [apply Subsequence_refl|reflexivity]).
  - unfold addTodo.
    destruct (String.eqb_spec (trim (inputValue st)) "") as [E|E].
    + right. split; [apply Subsequence_refl|reflexivity].
    + left. exists now, now'. repeat split.
  - right. split; [|reflexivity]. unfold toggleTodo. simpl.
    rewrite stamp_cond by reflexivity. apply Subsequence_refl.
  - right. split; [|reflexivity]. apply Subsequence_map, Subsequence_filter.
  - right. split; [|reflexivity]. apply Subsequence_map, Subsequence_filter.
  - right. split; [|reflexivity]. unfold saveEdit.
    destruct (editingId st) as [e|]; [|apply Subsequence_refl].
    destruct (truthy e && truthy (trim (editText st)))%bool;
      [|apply Subsequence_refl].
    simpl. rewrite stamp_cond by reflexivity. apply Subsequence_refl.
  - right. split; [|reflexivity].
    rewrite (stamps_Reload st st' Hd H). apply Subsequence_refl.
Qed.

Lemma run_stamps evs : forall st st',
  Forall timely evs -> Forall dated (todos st) ->
  run evs st = Some st' ->
  Subsequence (map stamp (todos st'))
              (rev (stamped evs st) ++ map stamp (todos st)).
Proof.
  induction evs as [|e evs IH]; simpl run; intros st st' He Hd Hrun.
  - injection Hrun as <-. apply Subsequence_refl.
  - inversion He as [|? ? He1 He2]; subst.
    destruct (handle e st) as [st1|] eqn:Eh; [|discriminate].
    destruct (dated_handle e st He1 Hd) as (st1' & Eh' & Hd1).
    assert (st1' = st1) by congruence. subst st1'.
    specialize (IH st1 st' He2 Hd1 Hrun).
    destruct (handle_stamps e st st1 evs He1 Hd Eh)
      as [(now & now' & -> & Es & Er)|[Hsub Er]]; rewrite Er.
    + rewrite Es in IH. simpl rev. rewrite <- app_assoc. exact IH.
    + eapply Subsequence_trans; [exact IH|].
      now apply Subsequence_app_head.
Qed.

(** X5. The list is kept newest first and a task keeps its id and its
    creation time for good: in a session from the empty list whose
    [new Date()] values are time values, the (id, createdAt) pairs of
    the list are, in list order, pairs that [addTodo] gave out, latest
    first; toggling, editing, deleting, clearing and reloading never
    reorder tasks nor alter such a pair. *)
Theorem stamps_newest_first :
  forall (evs : list Event) (st : State),
    Forall timely evs ->
    run evs initial = Some st ->
    Subsequence (map stamp (todos st)) (rev (stamped evs initial)).
Proof.
  intros evs st He Hrun.
  pose proof (run_stamps evs initial st He ltac:(constructor) Hrun) as H.
  simpl in H. now rewrite app_nil_r in H.
Qed.

Lemma stamps_newest_first_witness :
  Subsequence [("9", TimeValue 10); ("5", TimeValue 6)]
              [("9", TimeValue 10); ("7", TimeValue 8); ("5", TimeValue 6)].
Proof.
  pose (evs := [Input "a"; AddTodo 5 6; Input "b"; AddTodo 7 8; Input "c";
                AddTodo 9 10; ToggleTodo "5"; StartEditing
                  (mkTodo "9" "c" false (TimeValue 10));
                EditInput "see"; SaveEdit; DeleteTodo "7"; Reload]).
  pose (st := mkState [mkTodo "9" "see" false (TimeValue 10);
                       mkTodo "5" "a" true (TimeValue 6)] "" All None "").
  assert (He : Forall timely evs) by (repeat constructor).
  assert (Hrun : run evs initial = Some st) by (vm_compute; reflexivity).
  exact (stamps_newest_first evs st He Hrun).
Defined.

(* ================================================================== *)
(** * Counting *)

Lemma filter_lengths {A} (f : A -> bool) l :
  (List.length (List.filter f l)
   + List.length (List.filter (fun x => negb (f x)) l)
   = List.length l)%nat.
Proof.
  induction l as [|a l IH]; simpl; [reflexivity|].
  destruct (f a); simpl; lia.
Qed.

Lemma filter_same_iff {A} (f : A -> bool) l :
  List.filter f l = l <-> (forall x, In x l -> f x = true).
Proof.
  split; [|apply filter_all_true].
  intros H x Hx. rewrite <- H in Hx. now apply filter_In in Hx.
Qed.

Lemma existsb_filter_length {A} (f : A -> bool) l :
  existsb f l = true <-> (0 < List.length (List.filter f l))%nat.
Proof.
  induction l as [|a l IH]; simpl.
  - split; [discriminate|lia].
  - destruct (f a); simpl; [split; [lia|reflexivity]|exact IH].
Qed.

Lemma itemsLeft_plus_completed st :
  (itemsLeft st + List.length (filteredTodos (setFilter Completed st))
   = List.length (todos st))%nat.
Proof.
  unfold itemsLeft, filteredTodos. simpl.
  rewrite Nat.add_comm. apply (filter_lengths completed).
Qed.

(** X6. Every task is listed under exactly one of the filters Active
    and Completed, so the two counts add up to the length of the
    list, and the number the second version shows as "completed",
    [todos.length - itemsLeft], is the number of completed tasks,
    never negative. *)
Theorem counts_add_up : forall st : State,
  (itemsLeft st + List.length (filteredTodos (setFilter Completed st))
   = List.length (todos st))%nat
  /\ completedShown st
     = Z.of_nat (List.length (filteredTodos (setFilter Completed st)))
  /\ 0 <= completedShown st <= Z.of_nat (List.length (todos st))
  /\ (forall t, In t (todos st) ->
                In t (filteredTodos (setFilter Active st))
                \/ In t (filteredTodos (setFilter Completed st)))
  /\ (forall t, ~ (In t (filteredTodos (setFilter Active st))
                   /\ In t (filteredTodos (setFilter Completed st)))).
Proof.
  intros st. pose proof (itemsLeft_plus_completed st) as H.
  split; [exact H|]. split; [unfold completedShown; lia|].
  split; [unfold completedShown; lia|]. split.
  - intros t Ht. unfold filteredTodos. simpl. rewrite !filter_In.
    destruct (completed t); [right|left]; now split.
  - intros t [Ha Hc]. unfold filteredTodos in *. simpl in *.
    apply filter_In in Ha, Hc. destruct Ha as [_ Ha], Hc as [_ Hc].
    rewrite Hc in Ha. discriminate.
Qed.

(** X7. "Clear Completed" is offered by the second version exactly
    when clearing would change the list, that is when the completed
    count is positive. Clearing removes that many tasks, keeps
    [itemsLeft], leaves nothing to clear, and a second clearing changes
    nothing. *)
Theorem clear_offered_iff : forall st : State,
  (clearOffered st = true <-> todos (clearCompleted st) <> todos st)
  /\ (clearOffered st = true <-> 0 < completedShown st)
  /\ Z.of_nat (List.length (todos (clearCompleted st))) + completedShown st
     = Z.of_nat (List.length (todos st))
  /\ itemsLeft (clearCompleted st) = itemsLeft st
  /\ clearOffered (clearCompleted st) = false
  /\ clearCompleted (clearCompleted st) = clearCompleted st.
Proof.
  intros st.
  assert (Hlen : List.length (todos (clearCompleted st)) = itemsLeft st)
    by reflexivity.
  assert (Hex : clearOffered st = true <-> todos (clearCompleted st) <> todos st).
  { unfold clearOffered, clearCompleted. simpl. rewrite filter_same_iff.
    rewrite existsb_exists. split.
    - intros (t & Ht & Hc) H. specialize (H t Ht). rewrite Hc in H. discriminate.
    - intros H. destruct (existsb (fun t => completed t) (todos st)) eqn:E.
      + now apply existsb_exists in E.
      + exfalso. apply H. intros t Ht. apply negb_true_iff.
        destruct (completed t) eqn:Hc; [|reflexivity].
        assert (existsb (fun t => completed t) (todos st) = true)
          by (apply existsb_exists; eauto).
        congruence. }
  split; [exact Hex|]. split; [|split; [|split; [|split]]].
  - assert (Hc : completedShown st
                 = Z.of_nat (List.length
                               (List.filter (fun t => completed t) (todos st)))).
    { pose proof (itemsLeft_plus_completed st) as H.
      unfold filteredTodos in H. simpl in H. unfold completedShown. lia. }
    rewrite Hc. unfold clearOffered. rewrite existsb_filter_length. lia.
  - unfold completedShown. rewrite Hlen. lia.
  - unfold itemsLeft, clearCompleted. simpl. now rewrite filter_idempotent.
  - unfold clearOffered, clearCompleted. simpl.
    destruct (existsb _ _) eqn:E; [|reflexivity].
    apply existsb_exists in E. destruct E as (t & Ht & Hc).
    apply filter_In in Ht. destruct Ht as [_ Ht]. rewrite Hc in Ht. discriminate.
  - unfold clearCompleted. simpl. now rewrite filter_idempotent.
Qed.

Lemma clear_offered_iff_witness :
  let st := mkState [mkTodo "7" "Walk dog" false (TimeValue 8);
                     mkTodo "5" "Buy milk" true (TimeValue 6)] "" All None "" in
  clearOffered st = true /\ 0 < completedShown st
  /\ todos (clearCompleted st) <> todos st.
Proof.
  intros st. destruct (clear_offered_iff st) as (H1 & H2 & _).
  split; [reflexivity|]. split.
  - apply H2. reflexivity.
  - apply H1. reflexivity.
Defined.

(* ================================================================== *)
(** * What is rendered *)

Lemma length_zero_iff_nil {A} (l : list A) :
  Nat.eqb (List.length l) 0 = true <-> l = [].
Proof. destruct l; simpl; split; congruence. Qed.

Lemma listing_Message st s :
  listing st = Message s <->
  filteredTodos st = []
  /\ s = match filter st with
         | Completed => "No completed tasks yet"
         | Active => "All tasks completed!"
         | All => "Add your first task!"
         end.
Proof.
  unfold listing.
  destruct (Nat.eqb (List.length (filteredTodos st)) 0) eqn:E.
  - apply length_zero_iff_nil in E. split.
    + intros [= <-]. now split.
    + intros [_ ->]. reflexivity.
  - split; [discriminate|]. intros [H _]. rewrite H in E. discriminate.
Qed.

Lemma filteredTodos_nil st :
  filteredTodos st = [] <->
  match filter st with
  | All => todos st = []
  | Active => itemsLeft st = 0%nat
  | Completed => completedShown st = 0
  end.
Proof.
  pose proof (itemsLeft_plus_completed st) as Hsum.
  unfold completedShown, itemsLeft, filteredTodos in *. simpl in Hsum.
  destruct (filter st).
  - rewrite (filter_all_true (fun _ => true)) by reflexivity. reflexivity.
  - rewrite <- length_zero_iff_nil. apply Nat.eqb_eq.
  - rewrite <- length_zero_iff_nil, Nat.eqb_eq. lia.
Qed.

(** X8. The three messages that stand in for the list: "Add your
    first task!" shows exactly when the filter is All and there is no
    task; "All tasks completed!" exactly when the filter is Active and
    no task is left to do, be there tasks or not; "No completed tasks
    yet" exactly when the filter is Completed and no task is
    completed. Otherwise there is one row per filtered task. *)
Theorem empty_messages : forall st : State,
  (listing st = Message "Add your first task!"
   <-> filter st = All /\ todos st = [])
  /\ (listing st = Message "All tasks completed!"
      <-> filter st = Active /\ itemsLeft st = 0%nat)
  /\ (listing st = Message "No completed tasks yet"
      <-> filter st = Completed /\ completedShown st = 0)
  /\ (forall rows, listing st = Rows rows ->
        List.length rows = List.length (filteredTodos st) /\ rows <> []).
Proof.
  intros st.
  split; [|split; [|split]];
    try (rewrite listing_Message, filteredTodos_nil;
         destruct (filter st); split; intros [H E];
         try discriminate; split; (reflexivity || assumption)).
  intros rows H. split.
  - unfold listing in H.
    destruct (Nat.eqb (List.length (filteredTodos st)) 0); [discriminate|].
    injection H as <-. apply length_map.
  - unfold listing in H.
    destruct (Nat.eqb (List.length (filteredTodos st)) 0) eqn:E; [discriminate|].
    injection H as <-. intros Hr. apply map_eq_nil in Hr.
    rewrite Hr in E. discriminate.
Qed.

Lemma filteredTodos_Subsequence st : Subsequence (filteredTodos st) (todos st).
Proof. apply Subsequence_filter. Qed.

Lemma rows_outside (e : string) (v : string) (l : list Todo) :
  ~ In e (map id l) ->
  map (fun todo => if (e =? id todo)%string then EditRow todo v else ViewRow todo) l
  = map ViewRow l.
Proof.
  intros H. apply map_ext_in. intros t Ht.
  destruct (String.eqb_spec e (id t)) as [E|E]; [|reflexivity].
  exfalso. apply H. rewrite E. now apply in_map.
Qed.

(** X9. With pairwise distinct ids, [startEditing] on a task that is
    listed turns exactly its row into the edit field, filled with the
    text of the task; the rows before and after it still show their
    tasks. After [cancelEdit] no row is an edit field. *)
Theorem one_row_in_edit :
  forall (st : State) (l1 : list Todo) (todo : Todo) (l2 : list Todo),
    NoDup (ids st) ->
    filteredTodos st = (l1 ++ todo :: l2)%list ->
    listing (startEditing todo st)
    = Rows (map ViewRow l1 ++ EditRow todo (text todo) :: map ViewRow l2)
    /\ listing (cancelEdit (startEditing todo st))
       = Rows (map ViewRow (l1 ++ todo :: l2)).
Proof.
  intros st l1 todo l2 Hnd Hf.
  assert (Hf' : forall st', todos st' = todos st -> filter st' = filter st ->
                            filteredTodos st' = (l1 ++ todo :: l2)%list).
  { intros st' Ht Hm. unfold filteredTodos. rewrite Ht, Hm. exact Hf. }
  assert (Hids : NoDup (map id (l1 ++ todo :: l2))).
  { rewrite <- Hf. eapply Subsequence_NoDup; [|exact Hnd].
    apply Subsequence_map, filteredTodos_Subsequence. }
  rewrite map_app in Hids. simpl in Hids.
  pose proof (NoDup_remove_2 _ _ _ Hids) as Hout.
  assert (H1 : ~ In (id todo) (map id l1))
    by (intros H; apply Hout, in_or_app; now left).
  assert (H2 : ~ In (id todo) (map id l2))
    by (intros H; apply Hout, in_or_app; now right).
  split.
  - unfold listing. rewrite (Hf' (startEditing todo st)) by reflexivity.
    rewrite length_app. simpl.
    replace (Nat.eqb (List.length l1 + S (List.length l2)) 0) with false
      by (symmetry; apply Nat.eqb_neq; lia).
    f_equal. unfold inEdit. simpl. rewrite map_app. simpl.
    rewrite String.eqb_refl.
    now rewrite (rows_outside _ _ l1 H1), (rows_outside _ _ l2 H2).
  - unfold listing. rewrite (Hf' (cancelEdit (startEditing todo st))) by reflexivity.
    rewrite length_app. simpl.
    replace (Nat.eqb (List.length l1 + S (List.length l2)) 0) with false
      by (symmetry; apply Nat.eqb_neq; lia).
    reflexivity.
Qed.

Lemma one_row_in_edit_witness :
  let a := mkTodo "7" "Walk dog" false (TimeValue 8) in
  let b := mkTodo "5" "Buy milk" false (TimeValue 6) in
  let st := mkState [a; b] "" All None "" in
  listing (startEditing b st) = Rows [ViewRow a; EditRow b "Buy milk"].
Proof.
  intros a b st.
  apply (one_row_in_edit st [a] b []).
  - repeat constructor; simpl; intuition discriminate.
  - reflexivity.
Defined.

(* ================================================================== *)
(** * Leaving the editor *)

(** X10. [saveEdit] closes the editor only when it stores the text. An
    edit whose new text trims to nothing changes no cell at all: the
    editor stays open on the typed text, and so it does for a task
    whose id is the empty string. An edit that stores its text closes
    the editor and empties the edit field, leaving input and filter as
    they were. [cancelEdit] after any typing is [cancelEdit] before it
    and leaves the list alone. *)
Theorem leaving_the_editor :
  forall (st : State) (todo : Todo) (newText : string),
    ((trim newText = "" \/ id todo = "") ->
       edit todo newText st = setEditText newText (startEditing todo st)
       /\ editingId (edit todo newText st) = Some (id todo)
       /\ editText (edit todo newText st) = newText)
    /\ (trim newText <> "" -> id todo <> "" ->
          editingId (edit todo newText st) = None
          /\ editText (edit todo newText st) = ""
          /\ inputValue (edit todo newText st) = inputValue st
          /\ filter (edit todo newText st) = filter st)
    /\ cancelEdit (setEditText newText (startEditing todo st)) = cancelEdit st
    /\ todos (cancelEdit st) = todos st.
Proof.
  intros st todo newText. split; [|split; [|split; reflexivity]].
  - intros H.
    assert (E : edit todo newText st = setEditText newText (startEditing todo st)).
    { unfold edit, saveEdit. simpl.
      destruct H as [H|H].
      - rewrite H. now rewrite andb_false_r.
      - rewrite H. reflexivity. }
    rewrite E. repeat split.
  - intros Ht Hi. apply truthy_spec in Ht, Hi.
    unfold edit, saveEdit. simpl. rewrite Ht, Hi. repeat split.
Qed.

Lemma leaving_the_editor_witness :
  let b := mkTodo "5" "Buy milk" false (TimeValue 6) in
  let st := mkState [b] "draft" Active None "" in
  (editingId (edit b "   " st) = Some "5" /\ editText (edit b "   " st) = "   ")
  /\ (editingId (edit b " Buy oat milk " st) = None
      /\ inputValue (edit b " Buy oat milk " st) = "draft").
Proof.
  intros b st.
  destruct (leaving_the_editor st b "   ") as ((_ & H1 & H2) & _);
    [now left|].
  destruct (leaving_the_editor st b " Buy oat milk ") as (_ & H & _).
  destruct H as (H3 & _ & H4 & _); [discriminate|discriminate|].
  repeat split; assumption.
Defined.

(* ================================================================== *)
(** * Deleting and toggling among distinct ids *)

Lemma filter_out_id_length (i : string) l :
  NoDup (map id l) -> In i (map id l) ->
  S (List.length (List.filter (fun t => negb (id t =? i)%string) l))
  = List.length l.
Proof.
  induction l as [|a l IH]; simpl; intros Hnd Hin; [destruct Hin|].
  inversion Hnd as [|? ? Ha Hnd']; subst.
  destruct (String.eqb_spec (id a) i) as [E|E]; simpl.
  - f_equal. subst i. rewrite filter_all_true; [reflexivity|].
    intros t Ht. now rewrite (id_not_in (id a) l Ha t Ht).
  - f_equal. apply IH; [exact Hnd'|]. destruct Hin; [contradiction|assumption].
Qed.

(** X11. [deleteTodo] leaves no task of the given id and keeps all
    other tasks in their order; among pairwise distinct ids it removes
    exactly one task when the id is in the list. Deleting a task right
    after adding it gives back the old list, provided the new id was
    not in the list before. *)
Theorem deleteTodo_removes : forall (st : State) (i : string),
  ~ In i (ids (deleteTodo i st))
  /\ Selects (fun t => negb (id t =? i)%string)
             (todos (deleteTodo i st)) (todos st)
  /\ (NoDup (ids st) -> In i (ids st) ->
      S (List.length (todos (deleteTodo i st))) = List.length (todos st))
  /\ (forall v now now',
         i = Number_toString now -> trim v <> "" -> ~ In i (ids st) ->
         todos (deleteTodo i (add v now now' st)) = todos st).
Proof.
  intros st i. split; [|split; [apply Selects_filter|split]].
  - unfold ids, deleteTodo. simpl. intros H. apply in_map_iff in H.
    destruct H as (t & E & Ht). apply filter_In in Ht. destruct Ht as [_ Ht].
    rewrite E, String.eqb_refl in Ht. discriminate.
  - intros Hnd Hin. now apply filter_out_id_length.
  - intros v now now' -> Hv Hin. rewrite (add_nonblank _ _ _ _ Hv).
    unfold deleteTodo. simpl. rewrite String.eqb_refl. simpl.
    apply filter_all_true. intros t Ht. now rewrite (id_not_in _ _ Hin t Ht).
Qed.

Lemma deleteTodo_removes_witness :
  let st := mkState [mkTodo "7" "Walk dog" false (TimeValue 8);
                     mkTodo "5" "Buy milk" false (TimeValue 6)] "" All None "" in
  S (List.length (todos (deleteTodo "5" st))) = 2%nat
  /\ todos (deleteTodo "9" (add "Sleep" 9 9 st)) = todos st.
Proof.
  intros st. destruct (deleteTodo_removes st "5") as (_ & _ & H & _).
  destruct (deleteTodo_removes st "9") as (_ & _ & _ & H').
  split.
  - apply H; [|simpl; auto].
    repeat constructor; simpl; intuition discriminate.
  - apply H'; [reflexivity|discriminate|].
    simpl. intuition discriminate.
Defined.

Lemma active_toggle (t : Todo) l :
  NoDup (map id l) -> In t l ->
  (List.length
     (List.filter (fun x => negb (completed x))
        (map (fun x => if (id x =? id t)%string then flipped x else x) l))
   + (if completed t then 0 else 1)
   = List.length (List.filter (fun x => negb (completed x)) l)
     + (if completed t then 1 else 0))%nat.
Proof.
  induction l as [|a l IH]; simpl; intros Hnd Hin; [destruct Hin|].
  inversion Hnd as [|? ? Ha Hnd']; subst.
  destruct Hin as [->|Hin].
  - rewrite String.eqb_refl.
    rewrite map_fixed
      by (intros x Hx; now rewrite (id_not_in (id t) l Ha x Hx)).
    simpl. destruct (completed t); simpl; lia.
  - assert (E : (id a =? id t)%string = false).
    { apply String.eqb_neq. intros E. apply Ha. rewrite E. now apply in_map. }
    rewrite E. specialize (IH Hnd' Hin).
    destruct (completed a); simpl; lia.
Qed.

(** X12. Among pairwise distinct ids, toggling a listed task moves
    [itemsLeft] by exactly one: down when the task was to do, up when
    it was completed. *)
Theorem toggleTodo_moves_count :
  forall (st : State) (t : Todo),
    NoDup (ids st) -> In t (todos st) ->
    (itemsLeft (toggleTodo (id t) st) + (if completed t then 0 else 1)
     = itemsLeft st + (if completed t then 1 else 0))%nat.
Proof.
  intros st t Hnd Hin. unfold itemsLeft, toggleTodo. simpl.
  now apply active_toggle.
Qed.

Lemma toggleTodo_moves_count_witness :
  let b := mkTodo "5" "Buy milk" false (TimeValue 6) in
  let st := mkState [mkTodo "7" "Walk dog" false (TimeValue 8); b] "" All None "" in
  (itemsLeft (toggleTodo "5" st) + 1 = 2 + 0)%nat.
Proof.
  intros b st. apply (toggleTodo_moves_count st b).
  - repeat constructor; simpl; intuition discriminate.
  - simpl. auto.
Defined.

(* ================================================================== *)
(** * Handlers in either order *)

Lemma filter_filter_comm {A} (f g : A -> bool) l :
  List.filter f (List.filter g l) = List.filter g (List.filter f l).
Proof.
  induction l as [|a l IH]; simpl; [reflexivity|].
  destruct (f a) eqn:Ef, (g a) eqn:Eg; simpl; rewrite ?Ef, ?Eg, IH; reflexivity.
Qed.

Lemma filter_map_comm {A} (f : A -> bool) (g : A -> A) l :
  (forall x, f (g x) = f x) ->
  List.filter f (map g l) = map g (List.filter f l).
Proof.
  intros H. induction l as [|a l IH]; simpl; [reflexivity|].
  rewrite H. destruct (f a); simpl; now rewrite IH.
Qed.

(** X13. Toggles, deletions and edits of any ids can be done in either
    order: two toggles commute, two deletions commute, a toggle
    commutes with a deletion and with an edit, and a deletion commutes
    with an edit and with [clearCompleted]. *)
Theorem handlers_commute :
  forall (st : State) (i j : string) (todo : Todo) (newText : string),
    toggleTodo i (toggleTodo j st) = toggleTodo j (toggleTodo i st)
    /\ deleteTodo i (deleteTodo j st) = deleteTodo j (deleteTodo i st)
    /\ toggleTodo i (deleteTodo j st) = deleteTodo j (toggleTodo i st)
    /\ clearCompleted (deleteTodo j st) = deleteTodo j (clearCompleted st)
    /\ toggleTodo i (edit todo newText st) = edit todo newText (toggleTodo i st)
    /\ deleteTodo j (edit todo newText st) = edit todo newText (deleteTodo j st).
Proof.
  intros st i j todo newText.
  split; [|split; [|split; [|split; [|split]]]].
  - unfold toggleTodo, setTodos. simpl. f_equal. rewrite !map_map. apply map_ext.
    intros t. destruct (id t =? j)%string eqn:Ej, (id t =? i)%string eqn:Ei;
      simpl; rewrite ?Ej, ?Ei; reflexivity.
  - unfold deleteTodo, setTodos. simpl. f_equal. apply filter_filter_comm.
  - unfold toggleTodo, deleteTodo, setTodos. simpl. f_equal. symmetry.
    apply filter_map_comm. intros t. now destruct (id t =? i)%string.
  - unfold clearCompleted, deleteTodo, setTodos. simpl. f_equal.
    apply filter_filter_comm.
  - unfold edit, saveEdit, startEditing, toggleTodo. simpl.
    destruct (truthy (id todo) && truthy (trim newText))%bool; [|reflexivity].
    simpl. unfold setEditText, setEditingId, setTodos. simpl. f_equal.
    rewrite !map_map. apply map_ext. intros t.
    destruct (id t =? id todo)%string eqn:Ej, (id t =? i)%string eqn:Ei;
      simpl; rewrite ?Ej, ?Ei; reflexivity.
  - unfold edit, saveEdit, startEditing, deleteTodo. simpl.
    destruct (truthy (id todo) && truthy (trim newText))%bool; [|reflexivity].
    simpl. unfold setEditText, setEditingId, setTodos. simpl. f_equal.
    apply filter_map_comm. intros t. now destruct (id t =? id todo)%string.
Qed.

(* ================================================================== *)
(** * Keys *)

Lemma saveEdit_frame st :
  map stamp (todos (saveEdit st)) = map stamp (todos st)
  /\ map completed (todos (saveEdit st)) = map completed (todos st).
Proof.
  unfold saveEdit. destruct (editingId st) as [e|]; [|now split].
  destruct (truthy e && truthy (trim (editText st)))%bool; [|now split].
  simpl. split.
  - now apply stamp_cond.
  - rewrite map_map. apply map_ext. intros t. now destruct (id t =? e)%string.
Qed.

(** X14. No key pressed in the edit field adds, removes, reorders or
    completes a task, and only Enter can change a text; Escape leaves
    the list as it is and closes the editor. In [handleKeyPress], Enter
    during an edit never adds a task, whatever the input holds, and
    when no edit is under way it does what [handleInputKeyPress]
    does. *)
Theorem keys_keep_the_list :
  forall (key : string) (now now' : Z) (st : State),
    map stamp (todos (editKeyDown key st)) = map stamp (todos st)
    /\ map completed (todos (editKeyDown key st)) = map completed (todos st)
    /\ (key <> "Enter" -> todos (editKeyDown key st) = todos st)
    /\ (key = "Escape" ->
        editKeyDown key st = cancelEdit st
        /\ editingId (editKeyDown key st) = None)
    /\ (editingNow st = true ->
        map stamp (todos (handleKeyPress key now now' st))
        = map stamp (todos st))
    /\ (editingNow st = false ->
        handleKeyPress key now now' st = handleInputKeyPress key now now' st).
Proof.
  intros key now now' st. destruct (saveEdit_frame st) as [Hs Hc].
  unfold editKeyDown, handleKeyPress, handleInputKeyPress.
  destruct (String.eqb_spec key "Enter") as [->|Hk].
  - simpl. repeat split; try assumption; try congruence; try discriminate.
    + intros H. now rewrite H.
    + intros H. now rewrite H.
  - destruct (String.eqb_spec key "Escape") as [->|Hk'];
      repeat split; try reflexivity; congruence.
Qed.

Lemma keys_keep_the_list_witness :
  let b := mkTodo "5" "Buy milk" false (TimeValue 6) in
  let st := setEditText "Buy oat milk" (startEditing b
              (mkState [b] "Walk dog" All None "")) in
  todos (editKeyDown "a" st) = todos st
  /\ editingId (editKeyDown "Escape" st) = None
  /\ map stamp (todos (handleKeyPress "Enter" 7 8 st)) = [("5", TimeValue 6)].
Proof.
  intros b st.
  destruct (keys_keep_the_list "a" 7 8 st) as (_ & _ & H1 & _).
  destruct (keys_keep_the_list "Escape" 7 8 st) as (_ & _ & _ & H2 & _).
  destruct (keys_keep_the_list "Enter" 7 8 st) as (_ & _ & _ & _ & H3 & _).
  split; [apply H1; discriminate|]. split.
  - apply H2. reflexivity.
  - apply H3. reflexivity.
Defined.

(* ================================================================== *)
(** * What makes the list longer *)

(** X15. No event makes the list longer by more than one task, and
    the only event that makes it longer is [addTodo] on an input that
    does not trim to nothing; it puts its task in front. *)
Theorem only_addTodo_grows :
  forall (e : Event) (st st' : State),
    handle e st = Some st' ->
    (List.length (todos st') <= S (List.length (todos st)))%nat
    /\ ((List.length (todos st) < List.length (todos st'))%nat ->
        exists now now',
          e = AddTodo now now'
          /\ trim (inputValue st) <> ""
          /\ todos st'
             = mkTodo (Number_toString now) (trim (inputValue st)) false
                      (TimeValue now') :: todos st).
Proof.
  intros e st st' H.
  assert (Hl : forall s, List.length (ids s) = List.length (todos s))
    by (intros s; apply length_map).
  destruct (handle_ids e st st' [] H) as [(now & now' & -> & Ei & _)|[Hsub _]].
  - assert (Hlen : List.length (todos st') = S (List.length (todos st))).
    { rewrite <- !Hl, Ei. reflexivity. }
    split; [lia|]. intros _. exists now, now'.
    simpl in H. injection H as <-. unfold addTodo in *.
    destruct (String.eqb_spec (trim (inputValue st)) "") as [E|E].
    + simpl in Hlen. lia.
    + repeat split; assumption.
  - apply Subsequence_length in Hsub. rewrite !Hl in Hsub. split; [lia|lia].
Qed.

Lemma only_addTodo_grows_witness :
  let st := mkState [] " Buy milk " All None "" in
  exists now now',
    AddTodo 5 6 = AddTodo now now'
    /\ trim (inputValue st) <> ""
    /\ todos (addTodo 5 6 st)
       = mkTodo (Number_toString now) (trim (inputValue st)) false
                (TimeValue now') :: todos st.
Proof.
  intros st.
  apply (proj2 (only_addTodo_grows (AddTodo 5 6) st (addTodo 5 6 st) eq_refl)).
  simpl. lia.
Defined.

(* ================================================================== *)
(** * Counts under the handlers *)

Lemma active_by_flags l l' :
  map completed l = map completed l' ->
  List.length (List.filter (fun t => negb (completed t)) l)
  = List.length (List.filter (fun t => negb (completed t)) l').
Proof.
  revert l'. induction l as [|a l IH]; intros [|a' l'] H; try discriminate;
    [reflexivity|].
  simpl in H. injection H as Ha Hl. simpl. rewrite Ha.
  destruct (completed a'); simpl; [|f_equal]; now apply IH.
Qed.

Lemma edit_flags todo newText st :
  map completed (todos (edit todo newText st)) = map completed (todos st).
Proof.
  rewrite edit_todos.
  destruct (truthy (id todo) && truthy (trim newText))%bool; [|reflexivity].
  rewrite map_map. apply map_ext. intros t.
  now destruct (id t =? id todo)%string.
Qed.

(** X16. A task that [add] creates counts as left to do: [itemsLeft]
    goes up by one and the completed count stays. An edit, stored or
    not, moves neither count, and a deletion never raises
    [itemsLeft]. *)
Theorem counts_under_handlers :
  forall (st : State) (v : string) (now now' : Z) (todo : Todo)
         (newText i : string),
    (trim v <> "" ->
       itemsLeft (add v now now' st) = S (itemsLeft st)
       /\ completedShown (add v now now' st) = completedShown st)
    /\ itemsLeft (edit todo newText st) = itemsLeft st
    /\ completedShown (edit todo newText st) = completedShown st
    /\ (itemsLeft (deleteTodo i st) <= itemsLeft st)%nat.
Proof.
  intros st v now now' todo newText i.
  assert (He : itemsLeft (edit todo newText st) = itemsLeft st)
    by (apply active_by_flags, edit_flags).
  split; [|split; [exact He|split]].
  - intros Hv. rewrite (add_nonblank _ _ _ _ Hv).
    set (st1 := mkState _ _ _ _ _).
    assert (H1 : itemsLeft st1 = S (itemsLeft st)) by reflexivity.
    assert (H2 : List.length (todos st1) = S (List.length (todos st)))
      by reflexivity.
    split; [exact H1|]. unfold completedShown. rewrite H1, H2. lia.
  - unfold completedShown. rewrite He.
    pose proof (f_equal (@List.length bool) (edit_flags todo newText st)) as Hl.
    rewrite !length_map in Hl. now rewrite Hl.
  - unfold itemsLeft, deleteTodo. simpl. rewrite filter_filter_comm.
    apply Subsequence_length, Subsequence_filter.
Qed.

Lemma counts_under_handlers_witness :
  let st := mkState [mkTodo "5" "Buy milk" true (TimeValue 6)] "" All None "" in
  itemsLeft (add " Walk dog " 7 8 st) = 1%nat
  /\ completedShown (add " Walk dog " 7 8 st) = 1.
Proof.
  intros st.
  destruct (counts_under_handlers st " Walk dog " 7 8
              (mkTodo "5" "Buy milk" true (TimeValue 6)) "" "")
    as (H & _).
  destruct H as [H1 H2]; [discriminate|].
  split; [exact H1|exact H2].
Defined.

(* ================================================================== *)
(** * What the stored text tells *)

(** X17. Two different lists of validly dated tasks are never stored
    as the same string: the stored form loses nothing of such a
    list. *)
Theorem persist_injective :
  forall l1 l2 : list Todo,
    Forall dated l1 -> Forall dated l2 ->
    l1 <> l2 -> persist l1 <> persist l2.
Proof.
  intros l1 l2 H1 H2 Hne E. apply Hne.
  pose proof (loadEffect_persist_dated l1 H1) as E1.
  pose proof (loadEffect_persist_dated l2 H2) as E2.
  rewrite E in E1. congruence.
Qed.

Lemma persist_injective_witness :
  persist [mkTodo "5" "Buy milk" true (TimeValue 1700000000123)]
  <> persist [mkTodo "5" "Buy milk" true (TimeValue 1700000000124)].
Proof.
  apply persist_injective; try (repeat constructor). discriminate.
Defined.

(** X18. The first effect never throws on the text the second effect
    makes of a list of tasks, whatever their dates: it logs nothing
    and sets the list to one object per task, in order, with the id,
    the text and the completed flag of the task and a Date under
    [createdAt]. *)
Theorem own_text_is_never_refused :
  forall l : list Todo,
    exists objs : list Obj,
      firstEffect (Some (persist l)) = SetTodos objs
      /\ Forall2 (fun t o =>
                    lookup "id" o = Some (PJson (JString (id t)))
                    /\ lookup "text" o = Some (PJson (JString (text t)))
                    /\ lookup "completed" o = Some (PJson (JBool (completed t)))
                    /\ exists d, lookup "createdAt" o = Some (PDate d))
                 l objs.
Proof.
  intros l. exists (map reloadedObject l). split; [apply firstEffect_persist|].
  induction l as [|t l IH]; simpl; constructor; [|exact IH].
  repeat split. eexists. reflexivity.
Qed.

(* ================================================================== *)
(** * The filtered list under the handlers *)

Lemma filter_toggled (t : Todo) (b : bool) l :
  NoDup (map id l) -> In t l -> completed t = b ->
  List.filter (fun x => Bool.eqb (completed x) b)
    (map (fun x => if (id x =? id t)%string then flipped x else x) l)
  = List.filter (fun x => negb (id x =? id t)%string)
      (List.filter (fun x => Bool.eqb (completed x) b) l).
Proof.
  induction l as [|a l IH]; simpl; intros Hnd Hin Hb; [destruct Hin|].
  inversion Hnd as [|? ? Ha Hnd']; subst.
  destruct Hin as [->|Hin].
  - rewrite String.eqb_refl. simpl.
    rewrite map_fixed
      by (intros x Hx; now rewrite (id_not_in (id t) l Ha x Hx)).
    rewrite Bool.eqb_reflx. simpl. rewrite String.eqb_refl. simpl.
    replace (Bool.eqb (negb (completed t)) (completed t)) with false
      by (now destruct (completed t)).
    symmetry. apply filter_all_true. intros x Hx. apply filter_In in Hx.
    now rewrite (id_not_in (id t) l Ha x (proj1 Hx)).
  - assert (E : (id a =? id t)%string = false).
    { apply String.eqb_neq. intros E. apply Ha. rewrite E. now apply in_map. }
    rewrite E. specialize (IH Hnd' Hin eq_refl).
    destruct (Bool.eqb (completed a) (completed t)); simpl;
      rewrite ?E; simpl; now rewrite IH.
Qed.

(** X19. Among pairwise distinct ids, toggling a task listed under
    the filter Active or Completed takes exactly that task off the
    filtered list and leaves the other rows as they are; under All the
    filtered list keeps its length. A task that [add] creates goes on
    top of the filtered list under All and Active and does not show
    under Completed. *)
Theorem filtered_list_under_handlers :
  forall (st : State),
    (forall t, NoDup (ids st) -> In t (filteredTodos st) ->
       match filter st with
       | All =>
           List.length (filteredTodos (toggleTodo (id t) st))
           = List.length (filteredTodos st)
       | _ =>
           filteredTodos (toggleTodo (id t) st)
           = List.filter (fun x => negb (id x =? id t)%string) (filteredTodos st)
       end)
    /\ (forall v now now',
          trim v <> "" ->
          filteredTodos (add v now now' st)
          = match filter st with
            | Completed => filteredTodos st
            | _ => mkTodo (Number_toString now) (trim v) false (TimeValue now')
                   :: filteredTodos st
            end).
Proof.
  intros st. split.
  - intros t Hnd Hin. unfold filteredTodos in *. simpl.
    apply filter_In in Hin. destruct Hin as [Hin Hp].
    destruct (filter st).
    + rewrite !(filter_all_true (fun _ => true)) by reflexivity.
      apply length_map.
    + apply negb_true_iff in Hp.
      assert (Hext : forall l,
                 List.filter (fun x => negb (completed x)) l
                 = List.filter (fun x => Bool.eqb (completed x) false) l)
        by (intros l; apply filter_ext; intros x; now destruct (completed x)).
      rewrite !Hext. now apply filter_toggled.
    + assert (Hext : forall l,
                 List.filter (fun x => completed x) l
                 = List.filter (fun x => Bool.eqb (completed x) true) l)
        by (intros l; apply filter_ext; intros x; now destruct (completed x)).
      rewrite !Hext. now apply filter_toggled.
  - intros v now now' Hv. rewrite (add_nonblank _ _ _ _ Hv).
    unfold filteredTodos. simpl. now destruct (filter st).
Qed.

Lemma filtered_list_under_handlers_witness :
  let a := mkTodo "7" "Walk dog" false (TimeValue 8) in
  let b := mkTodo "5" "Buy milk" false (TimeValue 6) in
  let st := mkState [a; b] "" Active None "" in
  filteredTodos (toggleTodo "5" st) = [a]
  /\ filteredTodos (add "Sleep" 9 9 (setFilter Completed st)) = [].
Proof.
  intros a b st. split.
  - apply (proj1 (filtered_list_under_handlers st) b).
    + repeat constructor; simpl; intuition discriminate.
    + simpl. auto.
  - apply (proj2 (filtered_list_under_handlers (setFilter Completed st))
                 "Sleep" 9 9).
    discriminate.
Defined.

(* ================================================================== *)
(** * Instances *)

Lemma counts_add_up_witness :
  let a := mkTodo "7" "Walk dog" false (TimeValue 8) in
  let b := mkTodo "5" "Buy milk" true (TimeValue 6) in
  let st := mkState [a; b] "" All None "" in
  completedShown st = 1
  /\ (In b (filteredTodos (setFilter Active st))
      \/ In b (filteredTodos (setFilter Completed st))).
Proof.
  intros a b st. destruct (counts_add_up st) as (_ & H & _ & Hin & _).
  split; [rewrite H; reflexivity|]. apply Hin. simpl. auto.
Defined.

Lemma empty_messages_witness :
  let st := mkState [mkTodo "5" "Buy milk" true (TimeValue 6)] "" Active None "" in
  listing st = Message "All tasks completed!"
  /\ listing initial = Message "Add your first task!".
Proof.
  intros st. split.
  - apply (proj1 (proj2 (empty_messages st))). split; reflexivity.
  - apply (proj1 (empty_messages initial)). split; reflexivity.
Defined.

Lemma handlers_commute_witness :
  let a := mkTodo "7" "Walk dog" false (TimeValue 8) in
  let b := mkTodo "5" "Buy milk" false (TimeValue 6) in
  let st := mkState [a; b] "" All None "" in
  toggleTodo "5" (deleteTodo "7" st) = deleteTodo "7" (toggleTodo "5" st)
  /\ deleteTodo "7" (edit b " oat milk " st) = edit b " oat milk " (deleteTodo "7" st).
Proof.
  intros a b st.
  destruct (handlers_commute st "5" "7" b " oat milk ") as (_ & _ & H1 & _ & _ & H2).
  split; [exact H1|exact H2].
Defined.
